(** * Admin-Dashboard: payment-methods manager and card registry

    A shallow embedding of
    [src/components/ClientSideComponents/PagesComponents/PaymentService.tsx]
    and of the card registry ([makeCardDescriptors]), with the properties
    of their natural-language specification.

    Layout of the development:
    - [JsString]: JavaScript strings as sequences of UTF-16 code units,
      [trim], and the small fragment of regular expressions the page uses;
    - [Auth]: [sanitizeToken], [hasScheme], [buildHeaderFromRaw] and the
      effect that derives the [Authorization] header;
    - [Js]: JSON values as the page receives them from the API;
    - [Page]: the state of [PaymentMethodsPage], its event handlers and
      the pages that are reachable through them;
    - [Cards]: the card registry;
    - [Samples]: the data of the specification's examples;
    - [AuthFacts], [JsFacts], [PageFacts], [CardFacts]: the properties.

    Not modelled: rendering, [console.error], and the helpers that only
    format what is shown ([prettifyKey], [formatDateNice],
    [dateToInput]). *)

From Stdlib Require Import NArith List String Ascii Bool Lia.
From Stdlib Require Import DecimalString DecimalNat PrimFloat.
From stdpp Require Import base option list gmap.

Local Open Scope N_scope.
Local Open Scope list_scope.
Set Warnings "-register-all".

(* ===================================================================== *)
(** * JavaScript strings *)
(* ===================================================================== *)

Module JsString.

(** A JavaScript string is a finite sequence of UTF-16 code units. *)
Abbreviation char16 := N (only parsing).
Abbreviation jsstring := (list N) (only parsing).

(** ASCII literals of the source text. *)
Definition js (s : string) : jsstring :=
  map N_of_ascii (list_ascii_of_string s).

(** ECMAScript [LineTerminator]: LF, CR, LS, PS. *)
Definition is_line_terminator (c : char16) : bool :=
  (c =? 0x0A) || (c =? 0x0D) || (c =? 0x2028) || (c =? 0x2029).

(** ECMAScript [WhiteSpace]: TAB, VT, FF, ZWNBSP and the Unicode
    space separators (category Zs). *)
Definition is_white_space (c : char16) : bool :=
  (c =? 0x09) || (c =? 0x0B) || (c =? 0x0C) || (c =? 0x20) || (c =? 0xA0)
  || (c =? 0x1680) || ((0x2000 <=? c) && (c <=? 0x200A))
  || (c =? 0x202F) || (c =? 0x205F) || (c =? 0x3000) || (c =? 0xFEFF).

(** What [String.prototype.trim] strips and what [\s] matches. *)
Definition is_space (c : char16) : bool :=
  is_white_space c || is_line_terminator c.

Fixpoint trimStart (s : jsstring) : jsstring :=
  match s with
  | c :: s' => if is_space c then trimStart s' else s
  | [] => []
  end.

Definition trimEnd (s : jsstring) : jsstring := rev (trimStart (rev s)).

(** [String.prototype.trim]. *)
Definition trim (s : jsstring) : jsstring := trimEnd (trimStart s).

(** ** Regular expressions

    The fragment used by the page: anchors, single-character atoms, the
    greedy quantifiers [*] and [+] on an atom, and one capture group.
    Matching backtracks as the ECMAScript matcher does: a quantifier first
    takes as many characters as it can and gives them back one at a
    time while the rest of the pattern fails. *)

Inductive atom :=
| Chr (c : char16)   (* a literal character *)
| Any                (* [.]: anything but a line terminator *)
| Space.             (* [\s] *)

Inductive piece :=
| Bol                (* [^] *)
| Eol                (* [$] *)
| One (a : atom)
| Star (a : atom)    (* [a*] *)
| Plus (a : atom)    (* [a+] *)
| GroupOpen          (* [(] of group 1 *)
| GroupClose.        (* [)] of group 1 *)

Record regex := mkRegex { pieces : list piece; ignoreCase : bool }.

(** [Canonicalize] of the [i] flag (no [u] flag).  Only its action on
    ASCII letters is modelled: a code unit of 128 or more is never mapped
    onto an ASCII character, so this is exact when one side of the
    comparison is ASCII, which every literal of the page's patterns is. *)
Definition canonicalize (ic : bool) (c : char16) : char16 :=
  if ic && (97 <=? c) && (c <=? 122) then c - 32 else c.

Definition atom_match (ic : bool) (a : atom) (c : char16) : bool :=
  match a with
  | Chr x => canonicalize ic c =? canonicalize ic x
  | Any => negb (is_line_terminator c)
  | Space => is_space c
  end.

(** The matcher's state: the index reached in the subject, what is left
    of the subject, where group 1 opened, and the span of group 1. *)
Record mstate := mkM {
  pos : nat;
  rest : jsstring;
  gopen : option nat;
  group1 : option (nat * nat)
}.

Definition moved (st : mstate) (p : nat) (r : jsstring) : mstate :=
  mkM p r (gopen st) (group1 st).

(** Greedy repetition of a one-character test, followed by [k]. *)
Fixpoint star_loop (ok : char16 -> bool) (k : mstate -> option mstate)
    (st : mstate) (p : nat) (r : jsstring) : option mstate :=
  match r with
  | c :: r' =>
      if ok c then
        match star_loop ok k st (S p) r' with
        | Some m => Some m
        | None => k (moved st p r)
        end
      else k (moved st p r)
  | [] => k (moved st p r)
  end.

Fixpoint run (ic : bool) (ps : list piece) (st : mstate) : option mstate :=
  match ps with
  | [] => Some st
  | Bol :: ps' => if Nat.eqb (pos st) 0 then run ic ps' st else None
  | Eol :: ps' => match rest st with [] => run ic ps' st | _ :: _ => None end
  | One a :: ps' =>
      match rest st with
      | c :: r => if atom_match ic a c
                  then run ic ps' (moved st (S (pos st)) r) else None
      | [] => None
      end
  | Star a :: ps' =>
      star_loop (atom_match ic a) (run ic ps') st (pos st) (rest st)
  | Plus a :: ps' =>
      match rest st with
      | c :: r => if atom_match ic a c
                  then star_loop (atom_match ic a) (run ic ps') st
                         (S (pos st)) r
                  else None
      | [] => None
      end
  | GroupOpen :: ps' =>
      run ic ps' (mkM (pos st) (rest st) (Some (pos st)) (group1 st))
  | GroupClose :: ps' =>
      run ic ps'
        (mkM (pos st) (rest st) (gopen st)
             (match gopen st with
              | Some a => Some (a, pos st)
              | None => group1 st
              end))
  end.

(** The search of [RegExp.prototype.exec] without [g] or [y]: the first
    start index, from 0 upwards, at which the pattern matches. *)
Fixpoint exec_from (re : regex) (p : nat) (r : jsstring)
    : option (nat * mstate) :=
  match run (ignoreCase re) (pieces re) (mkM p r None None) with
  | Some m => Some (p, m)
  | None =>
      match r with
      | _ :: r' => exec_from re (S p) r'
      | [] => None
      end
  end.

Definition exec (re : regex) (s : jsstring) : option (nat * mstate) :=
  exec_from re 0%nat s.

(** [re.test(s)]. *)
Definition test (re : regex) (s : jsstring) : bool :=
  match exec re s with Some _ => true | None => false end.

(** Text of group 1 of a match in [s] (the empty string when the group
    did not take part, as [$1] expands to). *)
Definition group1_text (s : jsstring) (m : mstate) : jsstring :=
  match group1 m with
  | Some (a, b) => take (b - a)%nat (drop a s)
  | None => []
  end.

(** [s.replace(re, "$1")] for a pattern without the [g] flag. *)
Definition replace_by_group1 (re : regex) (s : jsstring) : jsstring :=
  match exec re s with
  | Some (start, m) => take start s ++ group1_text s m ++ rest m
  | None => s
  end.

(** A run of literal characters. *)
Definition lits (s : string) : list piece := map (fun c => One (Chr c)) (js s).

End JsString.

(* ===================================================================== *)
(** * Derivation of the Authorization header *)
(* ===================================================================== *)

Module Auth.
Import JsString.

Inductive scheme := Token | Bearer.

Definition scheme_name (p : scheme) : jsstring :=
  match p with Token => js "Token" | Bearer => js "Bearer" end.

Definition PREFERRED_SCHEME : scheme := Token.

(** The pattern of [sanitizeToken]: [^], a double quote (code unit 34),
    group 1 around [.*], a double quote, [$]. *)
Definition re_quoted : regex :=
  mkRegex ([Bol; One (Chr 34); GroupOpen; Star Any; GroupClose;
            One (Chr 34); Eol]) false.

(** [/^Bearer\s+/i] and [/^Token\s+/i] *)
Definition re_bearer : regex :=
  mkRegex (Bol :: lits "Bearer" ++ [Plus Space]) true.
Definition re_token : regex :=
  mkRegex (Bol :: lits "Token" ++ [Plus Space]) true.

(** [sanitizeToken]: [!raw] holds of [null] and of the empty string. *)
Definition sanitizeToken (raw : option jsstring) : option jsstring :=
  match raw with
  | None => None
  | Some [] => None
  | Some r => Some (trim (replace_by_group1 re_quoted r))
  end.

Definition hasScheme (t : jsstring) : bool :=
  test re_bearer t || test re_token t.

Definition buildHeaderFromRaw (raw : jsstring) (preferred : scheme)
    : jsstring :=
  if hasScheme raw then raw else scheme_name preferred ++ js " " ++ raw.

(** The effect on [token] of [PaymentMethodsPage]: the value it gives to
    [setAuthHeader].  Both [if (token)] and [cleanToken ? .. : null] test
    truthiness, which for a string is non-emptiness. *)
Definition deriveAuthHeader (token : option jsstring) : option jsstring :=
  match token with
  | Some (_ :: _) =>
      match sanitizeToken token with
      | Some (c :: cs) => Some (buildHeaderFromRaw (c :: cs) PREFERRED_SCHEME)
      | _ => None
      end
  | _ => None
  end.

End Auth.

(** ** The derivation as the specification words it

    Definitions that follow the words of the specification, to be
    compared with the ones above. *)
Module AuthSpec.
Import JsString.

(** [w] is a prefix of [s] up to the case of ASCII letters; the result is
    what follows the prefix. *)
Fixpoint after_prefix_ci (w s : jsstring) : option jsstring :=
  match w with
  | [] => Some s
  | a :: w' =>
      match s with
      | b :: s' =>
          if canonicalize true b =? canonicalize true a
          then after_prefix_ci w' s' else None
      | [] => None
      end
  end.

(** [s] begins with the scheme word [w], in any case, followed by at
    least one white-space character. *)
Definition begins_with_scheme (w s : jsstring) : bool :=
  match after_prefix_ci w s with
  | Some (c :: _) => is_space c
  | _ => false
  end.

(** [r] is [m] followed by a double quote, with no line terminator in
    [m]. *)
Fixpoint quoted_tail (r : jsstring) : option jsstring :=
  match r with
  | [] => None
  | c :: r' =>
      match r' with
      | [] => if c =? 34 then Some [] else None
      | _ :: _ =>
          if is_line_terminator c then None
          else option_map (cons c) (quoted_tail r')
      end
  end.

(** One layer of surrounding double quotes stripped, when the text
    between them is free of line terminators. *)
Definition unquote (s : jsstring) : jsstring :=
  match s with
  | q :: r =>
      if q =? 34
      then match quoted_tail r with Some m => m | None => s end
      else s
  | [] => s
  end.

(** One layer of surrounding double quotes stripped, whatever is between
    them. *)
Definition strip_quotes (s : jsstring) : jsstring :=
  match s with
  | q :: r =>
      match rev r with
      | q' :: m => if (q =? 34) && (q' =? 34) then rev m else s
      | [] => s
      end
  | [] => s
  end.

(** The cleaned token. *)
Definition cleaned (t : jsstring) : jsstring := trim (unquote t).

(** The header of a raw token, with white space after the scheme word
    and no header for a token that is empty once cleaned. *)
Definition header_of (raw : option jsstring) : option jsstring :=
  match raw with
  | None => None
  | Some t =>
      match cleaned t with
      | [] => None
      | c =>
          if begins_with_scheme (js "Bearer") c
             || begins_with_scheme (js "Token") c
          then Some c
          else Some (js "Token " ++ c)
      end
  end.

(** The header as the claim states it: every raw token that is not
    [null] has one, and the scheme is recognised by the prefixes
    [Bearer ] and [Token ] with one space. *)
Definition header_as_stated (raw : option jsstring) : option jsstring :=
  match raw with
  | None => None
  | Some t =>
      let c := trim (strip_quotes t) in
      match after_prefix_ci (js "Bearer ") c, after_prefix_ci (js "Token ") c with
      | None, None => Some (js "Token " ++ c)
      | _, _ => Some c
      end
  end.

End AuthSpec.

(* ===================================================================== *)
(** * JSON values *)
(* ===================================================================== *)

Module Js.
Import JsString.

(** The values [res.json()] yields, and the objects the page builds from
    them.  An object is its own properties in the order [Object.entries]
    and the spread operator enumerate them. *)
Inductive value :=
| VUndef
| VNull
| VBool (b : bool)
| VNum (x : float)
| VStr (s : jsstring)
| VArr (xs : list value)
| VObj (props : list (jsstring * value))
| VNative (id : jsstring).
  (* a built-in function or prototype object, named by [id]: what a
     read through the prototype chain can yield *)

Abbreviation props := (list (jsstring * value)) (only parsing).

(** [ToBoolean]: what [!!v], [v ? a : b], [v || d] and [v && w] test. *)
Definition truthy (v : value) : bool :=
  match v with
  | VUndef | VNull => false
  | VBool b => b
  | VNum x => negb (is_zero x || is_nan x)
  | VStr s => match s with [] => false | _ :: _ => true end
  | VArr _ | VObj _ | VNative _ => true
  end.

(** [v === undefined || v === null]: what [??] and [?.] test. *)
Definition nullish (v : value) : bool :=
  match v with VUndef | VNull => true | _ => false end.

(** [a || b] and [a ?? b]. *)
Definition or_else (a b : value) : value := if truthy a then a else b.
Definition coalesce (a b : value) : value := if nullish a then b else a.

(** The property key of an array index. *)
Definition index_key (i : nat) : jsstring :=
  js (NilEmpty.string_of_uint (Nat.to_uint i)).

(** Own enumerable string-keyed properties, in enumeration order: the
    properties of an object, the elements of an array, the code units of
    a string; nothing for the other primitives and for the built-ins. *)
Definition own_entries (v : value) : props :=
  match v with
  | VObj ps => ps
  | VArr xs => imap (fun i x => (index_key i, x)) xs
  | VStr s => imap (fun i c => (index_key i, VStr [c])) s
  | _ => []
  end.

Fixpoint assoc (k : jsstring) (ps : props) : option value :=
  match ps with
  | (k', v) :: ps' => if decide (k' = k) then Some v else assoc k ps'
  | [] => None
  end.

(** The names the page reads as fields of what the API sends. *)
Definition api_fields : list jsstring :=
  [js "payment_services"; js "is_active"].

(** What a property read finds when the value has no own enumerable
    property of that name: a member inherited through the prototype chain
    ([constructor], [toString], [map] of an array, ..) or an own one that
    is not enumerable ([length]).  Which names these are depends on the
    engine, so they are an environment of the model: [object_member k] is
    what a plain object yields for [k], [member v k] what any other value
    does.  No prototype has a member named like a field of the API. *)
Class Prototypes := {
  object_member : jsstring -> value;
  member : value -> jsstring -> value;
  api_fields_own :
    forall k, k ∈ api_fields ->
      object_member k = VUndef /\ forall v, member v k = VUndef
}.

Section Reading.
Context {P : Prototypes}.

(** [v[k]] for a [v] that is not nullish: the own property when there is
    one, and what the prototype chain yields otherwise. *)
Definition get (v : value) (k : jsstring) : value :=
  match assoc k (own_entries v) with
  | Some x => x
  | None =>
      match v with
      | VObj _ => object_member k
      | _ => member v k
      end
  end.

(** [v?.k]. *)
Definition get_opt (v : value) (k : jsstring) : value :=
  if nullish v then VUndef else get v k.

End Reading.

(** ** Building objects *)

Fixpoint digits_value (acc : N) (k : jsstring) : option N :=
  match k with
  | [] => Some acc
  | c :: k' =>
      if (48 <=? c) && (c <=? 57)
      then digits_value (acc * 10 + (c - 48)) k' else None
  end.

(** A key is an array index when it is the canonical decimal numeral of
    an integer below [2^32 - 1]. *)
Definition array_index (k : jsstring) : option N :=
  match k with
  | [] => None
  | [48] => Some 0
  | 48 :: _ => None
  | _ => match digits_value 0 k with
         | Some n => if n <? 4294967295 then Some n else None
         | None => None
         end
  end.

Fixpoint replace_prop (k : jsstring) (v : value) (ps : props) : props :=
  match ps with
  | (k', v') :: ps' =>
      if decide (k' = k) then (k, v) :: ps'
      else (k', v') :: replace_prop k v ps'
  | [] => []
  end.

(** A new array-index key goes before the first key that is not a
    smaller array index. *)
Fixpoint insert_index (n : N) (k : jsstring) (v : value) (ps : props)
    : props :=
  match ps with
  | (k', v') :: ps' =>
      match array_index k' with
      | Some n' =>
          if n' <? n then (k', v') :: insert_index n k v ps'
          else (k, v) :: ps
      | None => (k, v) :: ps
      end
  | [] => [(k, v)]
  end.

(** Defining the data property [k] of an ordinary object: an existing
    property keeps its place; a new one is enumerated after the existing
    ones, array indices first and in ascending order. *)
Definition set_prop (ps : props) (k : jsstring) (v : value) : props :=
  match assoc k ps with
  | Some _ => replace_prop k v ps
  | None =>
      match array_index k with
      | Some n => insert_index n k v ps
      | None => ps ++ [(k, v)]
      end
  end.

(** [{ ...ps, ...v }]: copy the own enumerable properties of [v] onto
    [ps].  Spreading [null] or [undefined] copies nothing. *)
Definition spread (ps : props) (v : value) : props :=
  fold_left (fun acc kv => set_prop acc (fst kv) (snd kv)) (own_entries v) ps.

(** No two own properties of a value have the same name; the
    representation of an object is meant to satisfy this. *)
Definition well_formed (v : value) : Prop :=
  NoDup (map fst (own_entries v)).

(** ** The standard prototypes

    The members of the prototypes of ECMAScript 2024 (Annex B included),
    by name, for the values a JSON body holds.  For a built-in itself
    only the members of [Object.prototype] are listed. *)

Definition object_names : list string :=
  ["__defineGetter__"; "__defineSetter__"; "__lookupGetter__";
   "__lookupSetter__"; "hasOwnProperty"; "isPrototypeOf";
   "propertyIsEnumerable"; "toLocaleString"; "toString"; "valueOf"]%string.

Definition array_names : list string :=
  ["at"; "concat"; "copyWithin"; "entries"; "every"; "fill"; "filter";
   "find"; "findIndex"; "findLast"; "findLastIndex"; "flat"; "flatMap";
   "forEach"; "includes"; "indexOf"; "join"; "keys"; "lastIndexOf"; "map";
   "pop"; "push"; "reduce"; "reduceRight"; "reverse"; "shift"; "slice";
   "some"; "sort"; "splice"; "toLocaleString"; "toReversed"; "toSorted";
   "toSpliced"; "toString"; "unshift"; "values"; "with"]%string.

Definition string_names : list string :=
  ["anchor"; "at"; "big"; "blink"; "bold"; "charAt"; "charCodeAt";
   "codePointAt"; "concat"; "endsWith"; "fixed"; "fontcolor"; "fontsize";
   "includes"; "indexOf"; "isWellFormed"; "italics"; "lastIndexOf"; "link";
   "localeCompare"; "match"; "matchAll"; "normalize"; "padEnd"; "padStart";
   "repeat"; "replace"; "replaceAll"; "search"; "slice"; "small"; "split";
   "startsWith"; "strike"; "sub"; "substr"; "substring"; "sup";
   "toLocaleLowerCase"; "toLocaleUpperCase"; "toLowerCase"; "toString";
   "toUpperCase"; "toWellFormed"; "trim"; "trimEnd"; "trimLeft";
   "trimRight"; "trimStart"; "valueOf"]%string.

Definition number_names : list string :=
  ["toExponential"; "toFixed"; "toLocaleString"; "toPrecision"; "toString";
   "valueOf"]%string.

Definition boolean_names : list string := ["toString"; "valueOf"]%string.

(** The member [k] of the prototype [proto] whose constructor is [ctor],
    when it has one: a method from [names], [constructor], or
    [__proto__] (the prototype object itself). *)
Definition proto_member (ctor : string) (names : list string)
    (k : jsstring) : option value :=
  if bool_decide (k ∈ map js names)
  then Some (VNative (js ctor ++ js ".prototype." ++ k))
  else if bool_decide (k = js "constructor") then Some (VNative (js ctor))
  else None.

Definition standard_object_member (k : jsstring) : value :=
  if bool_decide (k = js "__proto__") then VNative (js "Object.prototype")
  else default VUndef (proto_member "Object" object_names k).

(** A chain of one prototype and [Object.prototype] behind it. *)
Definition chain (ctor : string) (names : list string) (k : jsstring)
    : value :=
  if bool_decide (k = js "__proto__")
  then VNative (js ctor ++ js ".prototype")
  else match proto_member ctor names k with
       | Some x => x
       | None => default VUndef (proto_member "Object" object_names k)
       end.

(** The number of a length. *)
Fixpoint number_of_nat (n : nat) : float :=
  match n with
  | O => 0%float
  | S m => (number_of_nat m + 1)%float
  end.

Definition standard_member (v : value) (k : jsstring) : value :=
  match v with
  | VArr xs =>
      if bool_decide (k = js "length")
      then VNum (number_of_nat (length xs))
      else chain "Array" array_names k
  | VStr s =>
      if bool_decide (k = js "length")
      then VNum (number_of_nat (length s))
      else chain "String" string_names k
  | VNum _ => chain "Number" number_names k
  | VBool _ => chain "Boolean" boolean_names k
  | VObj _ | VNative _ => standard_object_member k
  | VUndef | VNull => VUndef
  end.

Lemma standard_api_fields_own k :
  k ∈ api_fields ->
  standard_object_member k = VUndef
  /\ forall v, standard_member v k = VUndef.
Proof.
  unfold api_fields. rewrite !elem_of_cons, elem_of_nil.
  intros [->|[->|[]]]; (split; [reflexivity | intros []; reflexivity]).
Qed.

Definition standard_prototypes : Prototypes :=
  {| object_member := standard_object_member;
     member := standard_member;
     api_fields_own := standard_api_fields_own |}.

End Js.

(* ===================================================================== *)
(** * The payment-methods page *)
(* ===================================================================== *)

Module Page.
Import JsString Js.

(** [type ServiceRow = { key: string; data: PaymentService }].  At run
    time [data] is whatever the API sent under the key. *)
Record ServiceRow := mkRow { key : jsstring; data : value }.

(** The [useState] cells of [PaymentMethodsPage], and what [alert] has
    shown so far (oldest first). *)
Record state := mkState {
  authHeader : option jsstring;
  services : list ServiceRow;
  loading : bool;
  error : option jsstring;
  expandedKey : option jsstring;
  editing : option props;
  saving : bool;
  toggling : gmap jsstring bool;
  alerts : list jsstring
}.

Definition initial : state :=
  mkState None [] true None None None false ∅ [].

Definition set_services (f : list ServiceRow -> list ServiceRow)
    (st : state) : state :=
  mkState (authHeader st) (f (services st)) (loading st) (error st)
          (expandedKey st) (editing st) (saving st) (toggling st) (alerts st).

Definition set_expandedKey (f : option jsstring -> option jsstring)
    (st : state) : state :=
  mkState (authHeader st) (services st) (loading st) (error st)
          (f (expandedKey st)) (editing st) (saving st) (toggling st)
          (alerts st).

Definition set_editing (f : option props -> option props) (st : state)
    : state :=
  mkState (authHeader st) (services st) (loading st) (error st)
          (expandedKey st) (f (editing st)) (saving st) (toggling st)
          (alerts st).

Definition set_saving (b : bool) (st : state) : state :=
  mkState (authHeader st) (services st) (loading st) (error st)
          (expandedKey st) (editing st) b (toggling st) (alerts st).

Definition set_toggling (f : gmap jsstring bool -> gmap jsstring bool)
    (st : state) : state :=
  mkState (authHeader st) (services st) (loading st) (error st)
          (expandedKey st) (editing st) (saving st) (f (toggling st))
          (alerts st).

Definition set_loading (b : bool) (st : state) : state :=
  mkState (authHeader st) (services st) b (error st)
          (expandedKey st) (editing st) (saving st) (toggling st) (alerts st).

Definition set_error (e : option jsstring) (st : state) : state :=
  mkState (authHeader st) (services st) (loading st) e
          (expandedKey st) (editing st) (saving st) (toggling st) (alerts st).

Definition set_authHeader (h : option jsstring) (st : state) : state :=
  mkState h (services st) (loading st) (error st)
          (expandedKey st) (editing st) (saving st) (toggling st) (alerts st).

Definition alert (msg : jsstring) (st : state) : state :=
  mkState (authHeader st) (services st) (loading st) (error st)
          (expandedKey st) (editing st) (saving st) (toggling st)
          (alerts st ++ [msg]).

(** ** What a request can come back with *)

(** A thrown value: [err instanceof Error] with its message, or not. *)
Inductive thrown := ErrorObject (message : jsstring) | OtherThrown.

Inductive settled (A : Type) :=
| Fulfilled (a : A)
| RejectedWith (e : thrown).
Arguments Fulfilled {A} a.
Arguments RejectedWith {A} e.

Record response := mkResponse {
  status : N;
  statusText : jsstring;
  text : settled jsstring;     (* [await res.text()] *)
  json : settled value         (* [await res.json()] *)
}.

(** [res.ok]: the status is in the range 200 to 299. *)
Definition ok (res : response) : bool :=
  (200 <=? status res) && (status res <=? 299).

Definition number_text (n : N) : jsstring :=
  js (NilEmpty.string_of_uint (N.to_uint n)).

(** The part of the [try] block that all three requests share: [fetch]
    is awaited; a response that is not [ok] has its body read as text and
    an error built from status, status text and body is thrown.  The
    result is the response the block goes on with, or what it threw. *)
Definition checked (r : settled response) : settled response :=
  match r with
  | RejectedWith e => RejectedWith e
  | Fulfilled res =>
      if ok res then Fulfilled res
      else match text res with
           | Fulfilled txt =>
               RejectedWith
                 (ErrorObject (number_text (status res) ++ js " "
                               ++ statusText res ++ js " - " ++ txt))
           | RejectedWith e => RejectedWith e
           end
  end.

(** [err instanceof Error ? err.message : fallback]. *)
Definition message_of (e : thrown) (fallback : jsstring) : jsstring :=
  match e with ErrorObject m => m | OtherThrown => fallback end.

(** [await res.json().catch(() => null)]. *)
Definition json_or_null (res : response) : value :=
  match json res with Fulfilled v => v | RejectedWith _ => VNull end.

Section Handlers.
Context {P : Prototypes}.

(** ** Loading the list (lines 70 to 109) *)

(** Lines 95 and 96: the rows of a parsed body. *)
Definition rows_of_json (body : value) : list ServiceRow :=
  let obj := coalesce (get_opt body (js "payment_services")) (VObj []) in
  map (fun kv => mkRow (fst kv) (or_else (snd kv) (VObj [])))
      (own_entries obj).

(** The settling of the GET while the effect is still mounted. *)
Definition fetch_settled (r : settled response) (st : state) : state :=
  let fail e :=
    set_error (Some (message_of e (js "Error fetching payment services"))) st in
  set_loading false
    match checked r with
    | Fulfilled res =>
        match json res with
        | Fulfilled body => set_services (fun _ => rows_of_json body) st
        | RejectedWith e => fail e
        end
    | RejectedWith e => fail e
    end.

(** The effect on [authHeader] up to the point where the GET is sent.
    The boolean tells whether a GET was sent. *)
Definition authHeader_effect (st : state) : state * bool :=
  match authHeader st with
  | Some (_ :: _) => (set_error None (set_loading true st), true)
  | _ => (set_error (Some (js "No auth token found.")) (set_loading false st),
          false)
  end.

(** ** Expanding a row (lines 111 to 119) *)

Definition find_row (k : jsstring) (rows : list ServiceRow)
    : option ServiceRow :=
  List.find (fun s => bool_decide (key s = k)) rows.

Definition openManage (k : jsstring) (st : state) : state :=
  let svc := find_row k (services st) in
  set_editing
    (fun _ => Some (match svc with
                    | Some s => spread [] (data s)
                    | None => []
                    end))
    (set_expandedKey
       (fun prev => if decide (prev = Some k) then None else Some k) st).

Definition cancelEdit (st : state) : state :=
  set_expandedKey (fun _ => None) (set_editing (fun _ => None) st).

(** The [onChange] handlers of the panel:
    [setEditing((p) => ({ ...(p ?? {}), name: v }))]. *)
Definition editField (name : jsstring) (v : value) (st : state) : state :=
  set_editing
    (fun p =>
       Some (set_prop
               (spread [] (VObj (match p with Some ps => ps | None => [] end)))
               name v))
    st.

(** ** Toggling a service (lines 121 to 157) *)

(** [prev.map((s) => (s.key === key ? f(s) : s))] *)
Definition map_key (k : jsstring) (f : ServiceRow -> ServiceRow)
    (rows : list ServiceRow) : list ServiceRow :=
  map (fun s => if decide (key s = k) then f s else s) rows.

(** [{ ...s, data: { ...s.data, is_active: b } }] *)
Definition with_is_active (b : bool) (s : ServiceRow) : ServiceRow :=
  mkRow (key s) (VObj (set_prop (spread [] (data s)) (js "is_active") (VBool b))).

(** [!!s.data.is_active]; reading a property of [null] or [undefined]
    throws, which [None] stands for. *)
Definition is_active_of (s : ServiceRow) : option bool :=
  if nullish (data s) then None
  else Some (truthy (get (data s) (js "is_active"))).

(** The record for [k] in the body of a PATCH response, when
    [json && json.payment_services && json.payment_services[key]] holds. *)
Definition updated_record (body : value) (k : jsstring) : option value :=
  if truthy body
     && truthy (get body (js "payment_services"))
     && truthy (get (get body (js "payment_services")) k)
  then Some (get (get body (js "payment_services")) k)
  else None.

(** [toggling[k]]: the flag that was set for [k], or what the object
    inherits under that name when none was. *)
Definition toggling_at (k : jsstring) (st : state) : value :=
  match toggling st !! k with
  | Some b => VBool b
  | None => object_member k
  end.

(** How far the synchronous part of [toggleService] gets. *)
Inductive toggle_start :=
| ToggleNoRow                       (* [idx === -1]: returns at once *)
| ToggleThrew                       (* reading [is_active] threw *)
| ToggleSent (current : bool) (st : state).   (* PATCH sent *)

(** [toggleService] up to the [await] of [fetch]. *)
Definition toggleService_begin (k : jsstring) (st : state) : toggle_start :=
  match find_row k (services st) with
  | None => ToggleNoRow
  | Some s =>
      match is_active_of s with
      | None => ToggleThrew
      | Some current =>
          ToggleSent current
            (set_toggling (fun t => <[k := true]> t)
               (set_services (map_key k (with_is_active (negb current))) st))
      end
  end.

(** [toggleService] from the settling of the PATCH to its end; [st] is
    the state the updates are applied to. *)
Definition toggleService_settled (k : jsstring) (current : bool)
    (r : settled response) (st : state) : state :=
  set_toggling (fun t => <[k := false]> t)
    match checked r with
    | Fulfilled res =>
        match updated_record (json_or_null res) k with
        | Some d => set_services (map_key k (fun _ => mkRow k d)) st
        | None => st
        end
    | RejectedWith e =>
        alert (js "Failed to change status: "
               ++ message_of e (js "Unknown error"))
          (set_services (map_key k (with_is_active current)) st)
    end.

(** ** Saving the draft (lines 159 to 190) *)

Inductive save_start :=
| SaveNoDraft                           (* [!editing]: returns at once *)
| SaveSent (draft : props) (st : state).   (* PATCH sent *)

Definition saveService_begin (st : state) : save_start :=
  match editing st with
  | None => SaveNoDraft
  | Some draft => SaveSent draft (set_saving true st)
  end.

(** [{ ...s, data: { ...s.data, ...editing } }] *)
Definition merged_with (draft : props) (s : ServiceRow) : ServiceRow :=
  mkRow (key s) (VObj (spread (spread [] (data s)) (VObj draft))).

Definition saveService_settled (k : jsstring) (draft : props)
    (r : settled response) (st : state) : state :=
  set_saving false
    match checked r with
    | Fulfilled res =>
        set_editing (fun _ => None)
          (set_expandedKey (fun _ => None)
             (set_services
                (match updated_record (json_or_null res) k with
                 | Some d => map_key k (fun _ => mkRow k d)
                 | None => map_key k (merged_with draft)
                 end) st))
    | RejectedWith e =>
        alert (js "Failed to save: " ++ message_of e (js "Unknown error")) st
    end.

(** The rows whose panel the page renders: [expandedKey === s.key]. *)
Definition open_panels (st : state) : list ServiceRow :=
  filter (fun s => expandedKey st = Some (key s)) (services st).

(** ** The page over time

    A request that is in flight, with what its continuation captured. *)
Inductive request :=
| GetList (mounted : bool)               (* the flag of the effect's closure *)
| PatchToggle (k : jsstring) (current : bool)
| PatchSave (k : jsstring) (draft : props).

Record world := mkWorld { page : state; inflight : list request }.

(** The cleanup of the effect on [authHeader]: [mounted = false]. *)
Definition unmount (q : request) : request :=
  match q with GetList _ => GetList false | _ => q end.

(** The first render: both effects run, the second one with the initial
    [authHeader], which is [null]. *)
Definition after_mount : world :=
  mkWorld (fst (authHeader_effect initial)) [].

(** The effect on [token]; when it changes [authHeader], the effect on
    [authHeader] is cleaned up and runs again. *)
Definition token_effect (token : option jsstring) (w : world) : world :=
  let h := Auth.deriveAuthHeader token in
  if decide (h = authHeader (page w)) then w
  else
    let (st, sent) := authHeader_effect (set_authHeader h (page w)) in
    mkWorld st (map unmount (inflight w)
                ++ (if sent then [GetList true] else [])).

(** A click on the toggle of row [k]: [toggleService(k)] runs up to its
    first [await]; when it returns or throws before, nothing changes. *)
Definition toggle_clicked (k : jsstring) (w : world) : world :=
  match toggleService_begin k (page w) with
  | ToggleSent current st' =>
      mkWorld st' (inflight w ++ [PatchToggle k current])
  | ToggleNoRow | ToggleThrew => w
  end.

(** A click on Save in the panel of row [k]. *)
Definition save_clicked (k : jsstring) (w : world) : world :=
  match saveService_begin (page w) with
  | SaveSent draft st' => mkWorld st' (inflight w ++ [PatchSave k draft])
  | SaveNoDraft => w
  end.

(** The list is on screen: the page is not loading and has no error to
    show ([error ? .. : ..] shows a message that is not empty). *)
Definition listed (k : jsstring) (st : state) : Prop :=
  loading st = false /\ (error st = None \/ error st = Some [])
  /\ k ∈ map key (services st).

(** The body of a response to the GET, as [JSON.parse] builds it: the
    object under [payment_services] has no repeated key. *)
Definition parsed (r : settled response) : Prop :=
  forall res body,
    r = Fulfilled res -> json res = Fulfilled body ->
    well_formed (coalesce (get_opt body (js "payment_services")) (VObj [])).

Inductive step : world -> world -> Prop :=
| step_token token w :
    step w (token_effect token w)
| step_get_settled m r st before after :
    parsed r ->
    step (mkWorld st (before ++ GetList m :: after))
         (mkWorld (if m then fetch_settled r st else st) (before ++ after))
| step_manage k w :
    listed k (page w) ->
    step w (mkWorld (openManage k (page w)) (inflight w))
| step_cancel k w :
    listed k (page w) -> expandedKey (page w) = Some k ->
    step w (mkWorld (cancelEdit (page w)) (inflight w))
| step_edit k name v w :
    listed k (page w) -> expandedKey (page w) = Some k ->
    step w (mkWorld (editField name v (page w)) (inflight w))
| step_toggle k w :
    listed k (page w) ->
    truthy (toggling_at k (page w)) = false ->
    step w (toggle_clicked k w)
| step_toggle_settled k current r st before after :
    step (mkWorld st (before ++ PatchToggle k current :: after))
         (mkWorld (toggleService_settled k current r st) (before ++ after))
| step_save k w :
    listed k (page w) -> expandedKey (page w) = Some k ->
    saving (page w) = false ->
    step w (save_clicked k w)
| step_save_settled k draft r st before after :
    step (mkWorld st (before ++ PatchSave k draft :: after))
         (mkWorld (saveService_settled k draft r st) (before ++ after)).

Inductive reachable : world -> Prop :=
| reach_mount : reachable after_mount
| reach_step w w' : reachable w -> step w w' -> reachable w'.

(** ** Invariants of the reachable pages *)

(** The data of every row is truthy. *)
Definition rows_truthy (st : state) : Prop :=
  Forall (fun s => truthy (data s) = true) (services st).

(** No two fields of a draft have the same name, be it the draft being
    edited or one that a save in flight has captured. *)
Definition distinct_fields (d : props) : Prop := NoDup (map fst d).

Definition drafts_distinct (w : world) : Prop :=
  (forall d, editing (page w) = Some d -> distinct_fields d)
  /\ Forall (fun q => match q with
                      | PatchSave _ d => distinct_fields d
                      | _ => True
                      end) (inflight w).

End Handlers.

End Page.

(* ===================================================================== *)
(** * The card registry *)
(* ===================================================================== *)

Module Cards.
Import JsString Js.

(** The components the cards render. *)
Inductive component :=
| SalesChart | SalesSourceCard | Transactions | RecentUsersTable.

(** A JSX element: the component and the properties it is given. *)
Record element := mkElement { component_of : component; given : props }.

(** Modelled from the spec: [CardId] (of [SeverSide/constants]) is the
    fixed set of card identifiers; they are the keys of the object that
    [makeCardDescriptors] returns. *)
Inductive CardId :=
| card_sales | card_sales_source | card_transactions | card_recent_users.

(** Modelled from the spec: [CardDescriptor] (of [SeverSide/types]) is
    [{id, title, render(data)}]; [DashboardData] is an object with the
    fields [salesChart] and [recentUsers], here a JSON value. *)
Record CardDescriptor := mkCard {
  id : jsstring;
  title : jsstring;
  render : value -> element
}.

Section Registry.
Context {P : Prototypes}.

(** [makeCardDescriptors]: a [Record<CardId, CardDescriptor>] is read as
    the function from its keys.  Each [render] takes its own [data]. *)
Definition makeCardDescriptors (data : value) (c : CardId) : CardDescriptor :=
  match c with
  | card_sales =>
      mkCard (js "card-sales") (js "Sales Chart")
        (fun data =>
           mkElement SalesChart
             [(js "salesData",
               or_else (get_opt data (js "salesChart")) (VArr []))])
  | card_sales_source =>
      mkCard (js "card-sales-source") (js "Sales Source")
        (fun _ => mkElement SalesSourceCard [])
  | card_transactions =>
      mkCard (js "card-transactions") (js "Recent Payment Transactions")
        (fun _ => mkElement Transactions [])
  | card_recent_users =>
      mkCard (js "card-recent-users") (js "Recent Users")
        (fun data =>
           mkElement RecentUsersTable
             [(js "users",
               or_else (get_opt data (js "recentUsers")) (VArr []))])
  end.

End Registry.

End Cards.

(* ===================================================================== *)
(** * Sample data *)
(* ===================================================================== *)

Module Samples.
Import JsString Js Page.

(** The samples run with the standard prototypes. *)
#[local] Existing Instance standard_prototypes.

Definition razorpay : jsstring := js "razorpay".
Definition cod : jsstring := js "cod".

Definition razorpay_data : value :=
  VObj [(js "name", VStr (js "Razorpay"));
        (js "is_active", VBool true);
        (js "razorpay_key_id", VStr (js "rzp_1"))].

Definition cod_data : value :=
  VObj [(js "name", VStr (js "Cash on delivery"));
        (js "url", VNull);
        (js "is_active", VBool false)].

Definition row_razorpay : ServiceRow := mkRow razorpay razorpay_data.
Definition row_cod : ServiceRow := mkRow cod cod_data.

(** The body [{payment_services: {razorpay: .., cod: ..}}]. *)
Definition list_body : value :=
  VObj [(js "payment_services",
         VObj [(razorpay, razorpay_data); (cod, cod_data)])].

Definition response_of (code : N) (reason : string) (body : value)
    : settled response :=
  Fulfilled (mkResponse code (js reason) (Fulfilled []) (Fulfilled body)).

(** A 200 whose body has no [payment_services], and a 500. *)
Definition ok_empty : settled response := response_of 200 "OK" (VObj []).
Definition server_error : settled response :=
  Fulfilled (mkResponse 500 (js "Internal Server Error")
                        (Fulfilled (js "boom")) (RejectedWith OtherThrown)).

(** The page with the two rows listed and nothing expanded. *)
Definition listed_page : state :=
  mkState (Some (js "Token abc")) [row_razorpay; row_cod]
          false None None None false ∅ [].

(** The same with the panel of [cod] open on the draft [{url: ..}]. *)
Definition draft_url : props := [(js "url", VStr (js "https://x"))].
Definition editing_page : state :=
  set_editing (fun _ => Some draft_url)
    (set_expandedKey (fun _ => Some cod) listed_page).


(** The page mounts with a token, the list arrives, and the panel of
    [razorpay] is opened. *)
Definition list_response : settled response := response_of 200 "OK" list_body.
Definition w_loading : world := token_effect (Some (js "abc")) after_mount.
Definition w_listed : world :=
  mkWorld (fetch_settled list_response (page w_loading)) [].
Definition w_managing : world :=
  mkWorld (openManage razorpay (page w_listed)) (inflight w_listed).

End Samples.

(* ===================================================================== *)
(** * What the page shows *)
(* ===================================================================== *)

Module Screen.
Import JsString Js Page.

(** ** [prettifyKey] (lines 375 to 377) *)

(** [s.replaceAll(a, b)] for one-character [a] and [b]. *)
Definition replaceAll_char (a b : char16) (s : jsstring) : jsstring :=
  map (fun c => if c =? a then b else c) s.

(** The class [\w] (no [i] or [u] flag): ASCII letters, digits and the
    underscore.  [\b] is defined from the same class. *)
Definition is_word_char (c : char16) : bool :=
  ((65 <=? c) && (c <=? 90)) || ((97 <=? c) && (c <=? 122))
  || ((48 <=? c) && (c <=? 57)) || (c =? 95).

Definition is_lower (c : char16) : bool := (97 <=? c) && (c <=? 122).

(** [m.toUpperCase()] for a one-character [m] of the class [\w]. *)
Definition upper_word_char (c : char16) : char16 :=
  if is_lower c then c - 32 else c.

(** [s.replace(/\b\w/g, (m) => m.toUpperCase())].  A match is one word
    character with a word boundary before it, that is a word character
    that does not follow another one; the search goes on after each
    match, so every such character is replaced.  [prev] tells whether the
    character before [s] is a word character. *)
Fixpoint upper_word_starts (prev : bool) (s : jsstring) : jsstring :=
  match s with
  | [] => []
  | c :: s' =>
      (if is_word_char c && negb prev then upper_word_char c else c)
        :: upper_word_starts (is_word_char c) s'
  end.

Definition prettifyKey (k : jsstring) : jsstring :=
  upper_word_starts false
    (replaceAll_char 46 32 (replaceAll_char 95 32 k)).

(** ** The screen (lines 199 to 368) *)

(** [error ? .. : ..]: an error message is shown when it is not empty. *)
Definition error_shown (st : state) : bool :=
  match error st with Some (_ :: _) => true | _ => false end.

(** The buttons of row [k] are on screen: the page is neither loading nor
    showing an error, and [services] has a row of key [k]. *)
Definition on_screen (k : jsstring) (st : state) : Prop :=
  loading st = false /\ error_shown st = false /\ k ∈ map key (services st).

(** ** The inputs of the panel (lines 286 to 330) *)

Inductive field :=
| f_url | f_razorpay_key_secret | f_razorpay_key_id
| f_start_date | f_end_date.

Definition field_name (f : field) : jsstring :=
  match f with
  | f_url => js "url"
  | f_razorpay_key_secret => js "razorpay_key_secret"
  | f_razorpay_key_id => js "razorpay_key_id"
  | f_start_date => js "start_date"
  | f_end_date => js "end_date"
  end.

(** What an input stores for the text typed: [e.target.value], and for
    the two dates [e.target.value || null]. *)
Definition field_value (f : field) (typed : jsstring) : value :=
  match f with
  | f_start_date | f_end_date => or_else (VStr typed) VNull
  | _ => VStr typed
  end.

Definition onChange (f : field) (typed : jsstring) (st : state) : state :=
  editField (field_name f) (field_value f typed) st.

Section Gated.
Context {P : Prototypes}.

(** ** The page over time, as the screen allows it

    The steps of [Page.step], with a button usable when it is on screen
    ([on_screen] tests the error message as the JSX does). *)
Inductive ui_step : world -> world -> Prop :=
| ui_token token w :
    ui_step w (token_effect token w)
| ui_get_settled m r st before after :
    parsed r ->
    ui_step (mkWorld st (before ++ GetList m :: after))
            (mkWorld (if m then fetch_settled r st else st) (before ++ after))
| ui_manage k w :
    on_screen k (page w) ->
    ui_step w (mkWorld (openManage k (page w)) (inflight w))
| ui_cancel k w :
    on_screen k (page w) -> expandedKey (page w) = Some k ->
    ui_step w (mkWorld (cancelEdit (page w)) (inflight w))
| ui_edit k name v w :
    on_screen k (page w) -> expandedKey (page w) = Some k ->
    ui_step w (mkWorld (editField name v (page w)) (inflight w))
| ui_toggle k w :
    on_screen k (page w) ->
    truthy (toggling_at k (page w)) = false ->
    ui_step w (toggle_clicked k w)
| ui_toggle_settled k current r st before after :
    ui_step (mkWorld st (before ++ PatchToggle k current :: after))
            (mkWorld (toggleService_settled k current r st) (before ++ after))
| ui_save k w :
    on_screen k (page w) -> expandedKey (page w) = Some k ->
    saving (page w) = false ->
    ui_step w (save_clicked k w)
| ui_save_settled k draft r st before after :
    ui_step (mkWorld st (before ++ PatchSave k draft :: after))
            (mkWorld (saveService_settled k draft r st) (before ++ after)).

Inductive ui_reachable : world -> Prop :=
| ui_mount : ui_reachable after_mount
| ui_next w w' : ui_reachable w -> ui_step w w' -> ui_reachable w'.

(** ** Requests in flight *)

Definition is_live_get (q : request) : bool :=
  match q with GetList true => true | _ => false end.

Definition is_save (q : request) : bool :=
  match q with PatchSave _ _ => true | _ => false end.

Definition is_toggle_of (k : jsstring) (q : request) : bool :=
  match q with PatchToggle k' _ => bool_decide (k' = k) | _ => false end.

Definition count (p : request -> bool) (qs : list request) : nat :=
  length (List.filter p qs).

Definition flag (b : bool) : nat := if b then 1%nat else 0%nat.

(** [!!toggling[k]]: the toggle of row [k] is disabled. *)
Definition is_toggling (k : jsstring) (st : state) : bool :=
  truthy (toggling_at k st).

(** The flag of [k] that a toggle has set and not yet cleared. *)
Definition toggle_flag (k : jsstring) (st : state) : bool :=
  default false (toggling st !! k).

(** ** What holds of every page the screen can reach *)

(** [loading] is set exactly while one GET whose effect is still mounted
    is in flight. *)
Definition gets_inv (w : world) : Prop :=
  count is_live_get (inflight w) = flag (loading (page w)).

(** [saving] is set exactly while one save is in flight. *)
Definition saves_inv (w : world) : Prop :=
  count is_save (inflight w) = flag (saving (page w)).

(** The flag of [k] in [toggling] is set exactly while one toggle of [k]
    is in flight. *)
Definition toggles_inv (w : world) : Prop :=
  forall k, count (is_toggle_of k) (inflight w) = flag (toggle_flag k (page w)).

(** An expanded row has a draft. *)
Definition panel_inv (st : state) : Prop :=
  expandedKey st <> None -> editing st <> None.

(** The header is one that [deriveAuthHeader] gives. *)
Definition header_inv (st : state) : Prop :=
  exists token, authHeader st = Auth.deriveAuthHeader token.

(** Without a header the page shows that no token was found, and no GET
    whose effect is mounted is in flight. *)
Definition no_header_inv (w : world) : Prop :=
  authHeader (page w) = None ->
  error (page w) = Some (js "No auth token found.")
  /\ count is_live_get (inflight w) = 0%nat.

End Gated.

(** Neither an underscore nor a dot. *)
Definition plain (c : char16) : Prop := c <> 95 /\ c <> 46.

End Screen.

(** Data for the examples of the screen. *)
Module Scenarios.
Import JsString Js Page Screen.

#[local] Existing Instance standard_prototypes.

(** A row whose entry in the list was [null]: its data is [{}]. *)
Definition upi : jsstring := js "upi".
Definition row_upi : ServiceRow := mkRow upi (VObj []).
Definition upi_page : state :=
  mkState (Some (js "Token abc")) [row_upi] false None None None false ∅ [].

(** What a toggle of [upi] that fails with the 500 leaves: the truth value
    read at the click, and the rows after the rollback. *)
Definition upi_toggle_failed : option (bool * list ServiceRow) :=
  match toggleService_begin upi upi_page with
  | ToggleSent current st1 =>
      Some (current,
            services (toggleService_settled upi current
                        Samples.server_error st1))
  | _ => None
  end.

(** A 200 whose body carries an updated record for [cod]. *)
Definition cod_updated : value :=
  VObj [(js "name", VStr (js "COD")); (js "is_active", VBool true)].
Definition ok_with_cod : settled response :=
  Samples.response_of 200 "OK"
    (VObj [(js "payment_services", VObj [(Samples.cod, cod_updated)])]).

(** A 204: a success whose body is not JSON. *)
Definition no_content : response :=
  mkResponse 204 (js "No Content") (Fulfilled [])
             (RejectedWith (ErrorObject (js "Unexpected end of JSON input"))).

(** The list is shown and the toggle of [cod] has been clicked. *)
Definition w_toggling : world := toggle_clicked Samples.cod Samples.w_listed.

(** The panel of [razorpay] is open and Save has been clicked. *)
Definition w_saving : world := save_clicked Samples.razorpay Samples.w_managing.

End Scenarios.

(* ===================================================================== *)
(** * Properties *)
(* ===================================================================== *)

Module AuthFacts.
Import JsString Auth AuthSpec.

(** *** The matcher *)

Lemma exec_from_bol ic ps p r :
  exec_from (mkRegex (Bol :: ps) ic) (S p) r = None.
Proof.
  revert p. induction r as [|c r IH]; intros p; simpl; [reflexivity|].
  apply IH.
Qed.

Lemma exec_bol ic ps s :
  exec (mkRegex (Bol :: ps) ic) s =
  match run ic ps (mkM 0 s None None) with
  | Some m => Some (0%nat, m)
  | None => None
  end.
Proof.
  unfold exec. destruct s as [|c s]; simpl.
  - destruct (run ic ps _); reflexivity.
  - destruct (run ic ps _); [reflexivity|]. apply exec_from_bol.
Qed.

Lemma star_loop_total ok k st p r :
  (forall m, is_Some (k m)) -> is_Some (star_loop ok k st p r).
Proof.
  intros Hk. revert p. induction r as [|c r IH]; intros p; simpl.
  - apply Hk.
  - destruct (ok c); [|apply Hk].
    destruct (IH (S p)) as [m ->]. eauto.
Qed.

Lemma run_lits ic (w : list N) ps st :
  ic = true ->
  run ic (map (fun c => One (Chr c)) w ++ ps) st =
  match after_prefix_ci w (rest st) with
  | Some r => run ic ps (moved st (pos st + length w)%nat r)
  | None => None
  end.
Proof.
  intros ->. revert st. induction w as [|a w IH]; intros st; simpl.
  - destruct st; unfold moved; simpl. rewrite Nat.add_0_r. reflexivity.
  - destruct (rest st) as [|b r]; [reflexivity|].
    destruct (canonicalize true b =? canonicalize true a); [|reflexivity].
    rewrite IH. simpl. destruct (after_prefix_ci w r); [|reflexivity].
    unfold moved; simpl. f_equal. f_equal. lia.
Qed.

Lemma test_scheme (w : string) s :
  test (mkRegex (Bol :: lits w ++ [Plus Space]) true) s
  = begins_with_scheme (js w) s.
Proof.
  unfold test, begins_with_scheme, lits. rewrite exec_bol.
  rewrite run_lits by reflexivity. simpl.
  destruct (after_prefix_ci (js w) s) as [[|c r]|]; try reflexivity.
  simpl. destruct (is_space c); [|reflexivity].
  match goal with
  | |- context [star_loop ?ok ?k ?st ?p ?r] =>
      destruct (star_loop_total ok k st p r) as [m ->]
  end; [intros m; simpl; eauto | reflexivity].
Qed.

Lemma hasScheme_spec s :
  hasScheme s
  = begins_with_scheme (js "Bearer") s || begins_with_scheme (js "Token") s.
Proof.
  unfold hasScheme, re_bearer, re_token. rewrite !test_scheme. reflexivity.
Qed.


(** *** Stripping the quotes *)

Lemma line_terminator_not_quote c :
  is_line_terminator c = true -> (c =? 34) = false.
Proof.
  unfold is_line_terminator. intros H.
  destruct (N.eqb_spec c 34) as [->|]; [discriminate H | reflexivity].
Qed.

Lemma quoted_tail_app r m : quoted_tail r = Some m -> r = m ++ [34].
Proof.
  revert m. induction r as [|c r IH]; intros m; simpl; [discriminate|].
  destruct r as [|c' r'].
  - destruct (N.eqb_spec c 34) as [->|]; [|discriminate].
    intros [= <-]. reflexivity.
  - destruct (is_line_terminator c); [discriminate|].
    destruct (quoted_tail (c' :: r')) as [m'|]; [|discriminate].
    intros [= <-]. simpl. f_equal. apply IH. reflexivity.
Qed.

Lemma quoted_tail_free r m :
  quoted_tail r = Some m -> forallb (fun c => negb (is_line_terminator c)) m = true.
Proof.
  revert m. induction r as [|c r IH]; intros m; simpl; [discriminate|].
  destruct r as [|c' r'].
  - destruct (c =? 34); [|discriminate]. intros [= <-]. reflexivity.
  - destruct (is_line_terminator c) eqn:Hc; [discriminate|].
    destruct (quoted_tail (c' :: r')) as [m'|]; [|discriminate].
    intros [= <-]. simpl. rewrite Hc. simpl. apply IH. reflexivity.
Qed.

Lemma quoted_tail_complete m :
  forallb (fun c => negb (is_line_terminator c)) m = true ->
  quoted_tail (m ++ [34]) = Some m.
Proof.
  induction m as [|c m IH]; simpl; [reflexivity|].
  intros [Hc Hm]%andb_prop. rewrite (IH Hm).
  apply negb_true_iff in Hc. rewrite Hc.
  destruct (m ++ [34]) eqn:E; [destruct m; discriminate E | reflexivity].
Qed.

(** What [quoted_tail] computes. *)
Lemma quoted_tail_iff r m :
  quoted_tail r = Some m
  <-> r = m ++ [34]
      /\ forallb (fun c => negb (is_line_terminator c)) m = true.
Proof.
  split.
  - intros H. split; [apply quoted_tail_app, H | eapply quoted_tail_free, H].
  - intros [-> H]. apply quoted_tail_complete, H.
Qed.

Lemma star_quoted st a p r :
  gopen st = Some a ->
  star_loop (atom_match false Any)
            (run false [GroupClose; One (Chr 34); Eol]) st p r
  = match quoted_tail r with
    | Some m =>
        Some (mkM (S (p + length m)) [] (Some a) (Some (a, (p + length m)%nat)))
    | None => None
    end.
Proof.
  intros Ha. revert p. induction r as [|c r IH]; intros p.
  - simpl. reflexivity.
  - cbn [star_loop]. rewrite IH. clear IH.
    assert (Hk : run false [GroupClose; One (Chr 34); Eol] (moved st p (c :: r))
                 = if c =? 34
                   then match r with
                        | [] => Some (mkM (S p) [] (Some a) (Some (a, p)))
                        | _ :: _ => None
                        end
                   else None).
    { simpl. rewrite Ha. unfold canonicalize; simpl.
      destruct (c =? 34); [|reflexivity]. destruct r; reflexivity. }
    rewrite Hk. clear Hk. cbn [atom_match quoted_tail].
    destruct r as [|c' r'].
    + simpl. destruct (is_line_terminator c) eqn:Hc; simpl.
      * rewrite (line_terminator_not_quote _ Hc). reflexivity.
      * destruct (c =? 34); [|reflexivity].
        rewrite Nat.add_0_r. reflexivity.
    + destruct (is_line_terminator c) eqn:Hc; simpl negb; cbv iota.
      * destruct (c =? 34); reflexivity.
      * destruct (quoted_tail (c' :: r')) as [m|]; simpl.
        -- repeat f_equal; lia.
        -- destruct (c =? 34); reflexivity.
Qed.

Lemma replace_quoted s : replace_by_group1 re_quoted s = unquote s.
Proof.
  unfold replace_by_group1, re_quoted. rewrite exec_bol.
  destruct s as [|q r]; [reflexivity|].
  cbn [run rest pos moved gopen group1 atom_match].
  unfold canonicalize; simpl andb; cbv iota.
  unfold unquote. destruct (q =? 34); [|reflexivity].
  rewrite (star_quoted _ 1%nat) by reflexivity.
  destruct (quoted_tail r) as [m|] eqn:Hm; [|reflexivity].
  apply quoted_tail_app in Hm. subst r.
  unfold group1_text. simpl.
  replace (length m - 0)%nat with (length m) by lia.
  rewrite drop_0, take_app_length. rewrite app_nil_r. reflexivity.
Qed.


(** *** Trimming *)

Lemma trimStart_length s : (length (trimStart s) <= length s)%nat.
Proof.
  induction s as [|c s IH]; simpl; [lia|].
  destruct (is_space c); simpl; lia.
Qed.

Lemma trimStart_fixed_head c s :
  trimStart (c :: s) = c :: s -> is_space c = false.
Proof.
  simpl. destruct (is_space c); [|reflexivity].
  intros H. pose proof (trimStart_length s) as L.
  rewrite H in L. simpl in L. lia.
Qed.

Lemma trimStart_idem s : trimStart (trimStart s) = trimStart s.
Proof.
  induction s as [|c s IH]; simpl; [reflexivity|].
  destruct (is_space c) eqn:Hc; [exact IH|]. simpl. rewrite Hc. reflexivity.
Qed.

Lemma trimStart_app_last l c :
  is_space c = false -> trimStart (l ++ [c]) = trimStart l ++ [c].
Proof.
  intros Hc. induction l as [|x l IH]; simpl.
  - rewrite Hc. reflexivity.
  - destruct (is_space x); [exact IH | reflexivity].
Qed.

Lemma trimStart_fixed_app l l' :
  trimStart l = l -> l <> [] -> trimStart (l ++ l') = l ++ l'.
Proof.
  destruct l as [|x l]; [congruence|]. intros H _.
  apply trimStart_fixed_head in H. simpl. rewrite H. reflexivity.
Qed.

Lemma trimEnd_cons c y :
  is_space c = false -> trimEnd (c :: y) = c :: trimEnd y.
Proof.
  intros Hc. unfold trimEnd. simpl.
  rewrite (trimStart_app_last _ _ Hc), rev_app_distr. reflexivity.
Qed.

Lemma trimEnd_idem y : trimEnd (trimEnd y) = trimEnd y.
Proof.
  unfold trimEnd. rewrite rev_involutive, trimStart_idem. reflexivity.
Qed.

Lemma trimStart_trimEnd y :
  trimStart y = y -> trimStart (trimEnd y) = trimEnd y.
Proof.
  destruct y as [|c y]; [reflexivity|]. intros H.
  apply trimStart_fixed_head in H. rewrite (trimEnd_cons _ _ H).
  simpl. rewrite H. reflexivity.
Qed.

Lemma trimStart_trim s : trimStart (trim s) = trim s.
Proof. apply trimStart_trimEnd, trimStart_idem. Qed.

Lemma trimEnd_trim s : trimEnd (trim s) = trim s.
Proof. apply trimEnd_idem. Qed.

Lemma trim_idem s : trim (trim s) = trim s.
Proof. unfold trim at 1. rewrite trimStart_trim. apply trimEnd_trim. Qed.

Lemma trimEnd_fixed_app pre c :
  trimEnd c = c -> c <> [] -> trimEnd (pre ++ c) = pre ++ c.
Proof.
  intros H Hne. unfold trimEnd. rewrite rev_app_distr.
  assert (Hr : trimStart (rev c) = rev c).
  { unfold trimEnd in H. rewrite <- H at 2. rewrite rev_involutive.
    reflexivity. }
  rewrite trimStart_fixed_app; [| exact Hr |].
  - rewrite rev_app_distr, !rev_involutive. reflexivity.
  - intros E. apply Hne. rewrite <- (rev_involutive c), E. reflexivity.
Qed.

(** A trimmed, non-empty text stays as it is behind a prefix that does
    not begin with white space. *)
Lemma trim_prefixed a pre s :
  is_space a = false -> trim s <> [] ->
  trim (a :: pre ++ trim s) = a :: pre ++ trim s.
Proof.
  intros Ha Hne. unfold trim at 1. simpl trimStart. rewrite Ha.
  rewrite (trimEnd_cons _ _ Ha). f_equal.
  apply trimEnd_fixed_app; [apply trimEnd_trim | exact Hne].
Qed.

(** *** The header *)

Lemma hasScheme_prefixed p raw :
  hasScheme (scheme_name p ++ js " " ++ raw) = true.
Proof. rewrite hasScheme_spec. destruct p; reflexivity. Qed.

Lemma scheme_head_not_quote y cs :
  hasScheme (y :: cs) = true -> (y =? 34) = false.
Proof.
  intros H. destruct (N.eqb_spec y 34) as [->|]; [|reflexivity].
  rewrite hasScheme_spec in H. discriminate H.
Qed.

Lemma derive_with_scheme c :
  c <> [] -> hasScheme c = true -> trim c = c ->
  deriveAuthHeader (Some c) = Some c.
Proof.
  intros Hne Hs Ht. destruct c as [|y cs]; [congruence|].
  unfold deriveAuthHeader, sanitizeToken. rewrite replace_quoted.
  unfold unquote. rewrite (scheme_head_not_quote _ _ Hs), Ht.
  unfold buildHeaderFromRaw. rewrite Hs. reflexivity.
Qed.

Lemma derive_spec raw : deriveAuthHeader raw = header_of raw.
Proof.
  destruct raw as [[|x t]|]; try reflexivity.
  unfold deriveAuthHeader, sanitizeToken, header_of, cleaned.
  rewrite replace_quoted.
  destruct (trim (unquote (x :: t))) as [|y cs]; [reflexivity|].
  unfold buildHeaderFromRaw. rewrite hasScheme_spec.
  destruct (_ || _); reflexivity.
Qed.


Lemma derive_idem raw :
  deriveAuthHeader (deriveAuthHeader raw) = deriveAuthHeader raw.
Proof.
  destruct raw as [[|x t]|]; try reflexivity.
  remember (deriveAuthHeader (Some (x :: t))) as h eqn:Eh.
  unfold deriveAuthHeader, sanitizeToken in Eh.
  destruct (trim (replace_by_group1 re_quoted (x :: t))) as [|y cs] eqn:Ec;
    subst h; [reflexivity|].
  assert (Ht : trim (y :: cs) = y :: cs) by (rewrite <- Ec; apply trim_idem).
  unfold buildHeaderFromRaw. destruct (hasScheme (y :: cs)) eqn:Hs.
  - apply derive_with_scheme; [discriminate | exact Hs | exact Ht].
  - apply derive_with_scheme.
    + discriminate.
    + apply hasScheme_prefixed.
    + rewrite <- Ec. apply (trim_prefixed 84 (js "oken ")); [reflexivity|].
      rewrite Ec. discriminate.
Qed.

Lemma build_idem raw p :
  buildHeaderFromRaw (buildHeaderFromRaw raw p) p = buildHeaderFromRaw raw p.
Proof.
  unfold buildHeaderFromRaw. destruct (hasScheme raw) eqn:Hs.
  - rewrite Hs. reflexivity.
  - rewrite hasScheme_prefixed. reflexivity.
Qed.

(** C2 (as amended).  The header of a raw token is [null] when the token
    is [null] or is empty once cleaned; otherwise, with the cleaned token
    being the raw one with one pair of surrounding double quotes removed
    (when no line terminator lies between them) and then trimmed, it is
    the cleaned token itself when that begins with [Bearer] or [Token],
    in any case, followed by white space, and [Token ] followed by the
    cleaned token when it does not. *)
Theorem C2_header_derivation (raw : option jsstring) :
  deriveAuthHeader raw =
  match raw with
  | None => None
  | Some t =>
      let c := trim (unquote t) in
      if bool_decide (c = []) then None
      else if begins_with_scheme (js "Bearer") c
              || begins_with_scheme (js "Token") c
           then Some c
           else Some (js "Token " ++ c)
  end.
Proof.
  rewrite derive_spec. destruct raw as [t|]; [|reflexivity].
  unfold header_of, cleaned. cbv zeta.
  destruct (trim (unquote t)) as [|y cs]; reflexivity.
Qed.

(** C2 fails as stated.  A token of three spaces is not [null], yet it has
    no header, where the claim gives it [Token ]; [Bearer], a tab and
    [abc] does not begin with [Bearer ] or [Token ], yet it is its own
    header, where the claim prefixes it; and a quoted token with a line
    feed between the quotes keeps its quotes. *)
Lemma C2_counterexample :
  (deriveAuthHeader (Some (js "   ")) = None
   /\ header_as_stated (Some (js "   ")) = Some (js "Token "))
  /\ (deriveAuthHeader (Some (js "Bearer" ++ [9] ++ js "abc"))
        = Some (js "Bearer" ++ [9] ++ js "abc")
      /\ header_as_stated (Some (js "Bearer" ++ [9] ++ js "abc"))
        = Some (js "Token Bearer" ++ [9] ++ js "abc"))
  /\ (deriveAuthHeader (Some ([34] ++ js "a" ++ [10] ++ js "b" ++ [34]))
        = Some (js "Token " ++ [34] ++ js "a" ++ [10] ++ js "b" ++ [34])
      /\ header_as_stated (Some ([34] ++ js "a" ++ [10] ++ js "b" ++ [34]))
        = Some (js "Token a" ++ [10] ++ js "b")).
Proof. vm_compute. repeat split; reflexivity. Qed.

(** C3.  Deriving the header from a derived header gives that header
    again, and [buildHeaderFromRaw] leaves its own result as it is: a
    token that carries a scheme gets no second prefix. *)
Theorem C3_derivation_idempotent :
  (forall raw : option jsstring,
     deriveAuthHeader (deriveAuthHeader raw) = deriveAuthHeader raw)
  /\ (forall (raw : jsstring) (p : scheme),
        buildHeaderFromRaw (buildHeaderFromRaw raw p) p
        = buildHeaderFromRaw raw p).
Proof. split; [exact derive_idem | exact build_idem]. Qed.

(** The examples of the specification. *)
Example derive_prefixed :
  deriveAuthHeader (Some (js "bearer   abc.def")) = Some (js "bearer   abc.def").
Proof. reflexivity. Qed.

Example derive_bare :
  deriveAuthHeader (Some ([34] ++ js " abc " ++ [34])) = Some (js "Token abc").
Proof. reflexivity. Qed.

Example derive_missing : deriveAuthHeader None = None.
Proof. reflexivity. Qed.

End AuthFacts.

Module JsFacts.
Import JsString Js.

Lemma assoc_None k (ps : list (list N * value)) :
  k ∉ map fst ps -> assoc k ps = None.
Proof.
  induction ps as [|[k' v] ps IH]; simpl; [reflexivity|].
  intros H. apply not_elem_of_cons in H as [H1 H2].
  destruct (decide (k' = k)) as [->|]; [contradiction|]. apply IH, H2.
Qed.

Lemma assoc_app k (ps qs : list (list N * value)) :
  assoc k (ps ++ qs)
  = match assoc k ps with Some v => Some v | None => assoc k qs end.
Proof.
  induction ps as [|[k' v] ps IH]; simpl; [reflexivity|].
  destruct (decide (k' = k)); [reflexivity | exact IH].
Qed.

Lemma assoc_replace_prop k v ps f :
  assoc f (replace_prop k v ps)
  = if decide (k = f)
    then match assoc k ps with Some _ => Some v | None => None end
    else assoc f ps.
Proof.
  induction ps as [|[k' v'] ps IH]; simpl.
  - destruct (decide (k = f)); reflexivity.
  - destruct (decide (k' = k)) as [->|Hk]; simpl.
    + destruct (decide (k = f)); reflexivity.
    + rewrite IH. destruct (decide (k = f)) as [->|].
      * destruct (decide (k' = f)); [contradiction | reflexivity].
      * reflexivity.
Qed.

Lemma assoc_insert_index n k v ps f :
  assoc k ps = None ->
  assoc f (insert_index n k v ps)
  = if decide (k = f) then Some v else assoc f ps.
Proof.
  induction ps as [|[k' v'] ps IH]; simpl; intros Hk.
  - destruct (decide (k = f)); reflexivity.
  - destruct (decide (k' = k)) as [|Hne]; [discriminate|].
    destruct (array_index k') as [n'|]; [destruct (n' <? n)|]; simpl.
    + rewrite (IH Hk). destruct (decide (k = f)) as [->|].
      * destruct (decide (k' = f)); [contradiction | reflexivity].
      * reflexivity.
    + destruct (decide (k = f)); reflexivity.
    + destruct (decide (k = f)); reflexivity.
Qed.

(** Reading a property after defining one. *)
Lemma assoc_set_prop ps k v f :
  assoc f (set_prop ps k v) = if decide (k = f) then Some v else assoc f ps.
Proof.
  unfold set_prop. destruct (assoc k ps) as [x|] eqn:Hk.
  - rewrite assoc_replace_prop, Hk. reflexivity.
  - destruct (array_index k) as [n|].
    + apply assoc_insert_index, Hk.
    + rewrite assoc_app. simpl.
      destruct (decide (k = f)) as [->|].
      * rewrite Hk. reflexivity.
      * destruct (assoc f ps); reflexivity.
Qed.

Lemma assoc_fold_set_prop (es base : list (list N * value)) f :
  NoDup (map fst es) ->
  assoc f (fold_left (fun acc kv => set_prop acc (fst kv) (snd kv)) es base)
  = match assoc f es with Some v => Some v | None => assoc f base end.
Proof.
  revert base. induction es as [|[k v] es IH]; intros base Hnd; simpl.
  - reflexivity.
  - inversion Hnd as [|? ? Hk Hes]; subst.
    rewrite (IH _ Hes), assoc_set_prop.
    destruct (decide (k = f)) as [->|]; [|reflexivity].
    rewrite (assoc_None _ _ Hk). reflexivity.
Qed.

(** Reading a property of [{ ...ps, ...v }]. *)
Lemma assoc_spread ps v f :
  well_formed v ->
  assoc f (spread ps v)
  = match assoc f (own_entries v) with
    | Some x => Some x
    | None => assoc f ps
    end.
Proof. intros H. apply assoc_fold_set_prop, H. Qed.

(** *** Reading properties *)

Section Reading.
Context {P : Prototypes}.

(** An own property shadows the prototype chain. *)
Lemma get_own v k x : assoc k (own_entries v) = Some x -> get v k = x.
Proof. intros H. unfold get. rewrite H. reflexivity. Qed.

(** A field of the API that a value does not have is [undefined]. *)
Lemma get_api_field_absent v k :
  k ∈ api_fields -> assoc k (own_entries v) = None -> get v k = VUndef.
Proof.
  intros Hk H. unfold get. rewrite H.
  destruct (api_fields_own k Hk) as [Ho Hm].
  destruct v; auto.
Qed.

Lemma get_set_prop ps k v : get (VObj (set_prop ps k v)) k = v.
Proof.
  apply get_own. simpl. rewrite assoc_set_prop.
  destruct (decide (k = k)); [reflexivity | contradiction].
Qed.

End Reading.


(** *** Objects the page builds have distinct property names *)

Lemma assoc_Some_elem k (ps : list (list N * value)) v :
  assoc k ps = Some v -> k ∈ map fst ps.
Proof.
  induction ps as [|[k' v'] ps IH]; simpl; [discriminate|].
  destruct (decide (k' = k)) as [->|]; intros H.
  - apply list_elem_of_here.
  - apply list_elem_of_further, IH, H.
Qed.

Lemma replace_prop_keys k v ps :
  k ∈ map fst ps -> map fst (replace_prop k v ps) = map fst ps.
Proof.
  induction ps as [|[k' v'] ps IH]; simpl; [reflexivity|].
  intros H. destruct (decide (k' = k)) as [->|Hne]; simpl; [reflexivity|].
  f_equal. apply IH. apply elem_of_cons in H as [->|H]; [contradiction|exact H].
Qed.

Lemma insert_index_keys n k v ps :
  map fst (insert_index n k v ps) ≡ₚ k :: map fst ps.
Proof.
  induction ps as [|[k' v'] ps IH]; simpl; [reflexivity|].
  destruct (array_index k') as [n'|]; [destruct (n' <? n)|]; simpl;
    try reflexivity.
  rewrite IH. apply Permutation_swap.
Qed.

Lemma set_prop_distinct ps k v :
  NoDup (map fst ps) -> NoDup (map fst (set_prop ps k v)).
Proof.
  intros Hnd. unfold set_prop. destruct (assoc k ps) as [x|] eqn:Hk.
  - rewrite replace_prop_keys; [exact Hnd | eapply assoc_Some_elem, Hk].
  - assert (Hfresh : k ∉ map fst ps).
    { intros Hin. apply list_elem_of_fmap in Hin as [[k' v'] [-> Hin]].
      clear Hnd. induction ps as [|[k2 v2] ps IH]; [inversion Hin|].
      simpl in Hk. destruct (decide (k2 = k')) as [|Hne]; [discriminate|].
      apply elem_of_cons in Hin as [[= <- <-]|Hin]; [contradiction|].
      exact (IH Hk Hin). }
    destruct (array_index k) as [n|].
    + rewrite insert_index_keys. apply NoDup_cons. split; assumption.
    + rewrite map_app. simpl. apply NoDup_app. split; [exact Hnd|].
      split; [|apply NoDup_singleton].
      intros y Hy Hy'. apply list_elem_of_singleton in Hy'. congruence.
Qed.

Lemma spread_distinct ps v :
  NoDup (map fst ps) -> NoDup (map fst (spread ps v)).
Proof.
  unfold spread. revert ps.
  induction (own_entries v) as [|[k x] es IH]; intros ps Hnd; simpl.
  - exact Hnd.
  - apply IH, set_prop_distinct, Hnd.
Qed.

(** *** Arrays and strings have distinct property names *)

Lemma js_inj s s' : js s = js s' -> s = s'.
Proof.
  unfold js. intros H.
  rewrite <- (string_of_list_ascii_of_string s),
          <- (string_of_list_ascii_of_string s').
  f_equal. revert H.
  generalize (list_ascii_of_string s) (list_ascii_of_string s').
  induction l as [|a l IH]; intros [|a' l']; simpl; try discriminate.
  - reflexivity.
  - intros [= Ha Hl]. f_equal; [|apply IH, Hl].
    rewrite <- (ascii_N_embedding a), <- (ascii_N_embedding a'), Ha.
    reflexivity.
Qed.

Lemma index_key_inj i j : index_key i = index_key j -> i = j.
Proof.
  unfold index_key. intros H. apply js_inj in H.
  apply (f_equal NilEmpty.uint_of_string) in H.
  rewrite !NilEmpty.usu in H. injection H as H.
  apply (f_equal Nat.of_uint) in H.
  rewrite !DecimalNat.Unsigned.of_to in H. exact H.
Qed.

Lemma index_keys_distinct {A} (f : nat -> A -> value) (xs : list A) :
  NoDup (map fst (imap (fun i x => (index_key i, f i x)) xs)).
Proof.
  apply NoDup_alt. intros i j k Hi Hj.
  rewrite list_lookup_fmap, list_lookup_imap in Hi.
  rewrite list_lookup_fmap, list_lookup_imap in Hj.
  destruct (xs !! i); [|discriminate]. destruct (xs !! j); [|discriminate].
  simpl in Hi, Hj. apply index_key_inj. congruence.
Qed.

(** Only the representation of an object can fail to be well formed. *)
Lemma well_formed_not_object v :
  (forall ps, v <> VObj ps) -> well_formed v.
Proof.
  intros H. unfold well_formed. destruct v; simpl; try apply NoDup_nil_2.
  - apply (index_keys_distinct (fun _ c => VStr [c])).
  - apply (index_keys_distinct (fun _ x => x)).
  - exfalso. exact (H props eq_refl).
Qed.

End JsFacts.

Module PageFacts.
Import JsString Js Page JsFacts.

Section WithPrototypes.
Context {P : Prototypes}.

(** *** Rows replaced by key *)

Lemma find_row_key k rows s : find_row k rows = Some s -> key s = k.
Proof.
  unfold find_row. intros H. apply find_some in H as [_ H].
  apply bool_decide_eq_true in H. exact H.
Qed.

Lemma find_row_None k rows : find_row k rows = None <-> k ∉ map key rows.
Proof.
  unfold find_row. induction rows as [|s rows IH]; simpl.
  - split; [intros _; apply not_elem_of_nil | reflexivity].
  - rewrite not_elem_of_cons. case_bool_decide as Hk.
    + split; [discriminate | intros [H _]; congruence].
    + rewrite IH. split; [intros H; split; [congruence | exact H] | tauto].
Qed.

Lemma map_key_keys k f rows :
  (forall s, key s = k -> key (f s) = k) ->
  map key (map_key k f rows) = map key rows.
Proof.
  intros Hf. unfold map_key. rewrite map_map. apply map_ext.
  intros s. destruct (decide (key s = k)) as [E|]; [|reflexivity].
  rewrite (Hf s E). symmetry. exact E.
Qed.

Lemma map_key_absent k f rows :
  find_row k rows = None -> map_key k f rows = rows.
Proof.
  rewrite find_row_None. unfold map_key. induction rows as [|s rows IH]; simpl.
  - reflexivity.
  - rewrite not_elem_of_cons. intros [H1 H2].
    destruct (decide (key s = k)); [congruence|]. f_equal. apply IH, H2.
Qed.

Lemma find_row_map_key k f rows :
  (forall s, key s = k -> key (f s) = k) ->
  find_row k (map_key k f rows) = option_map f (find_row k rows).
Proof.
  intros Hf. unfold find_row, map_key.
  induction rows as [|s rows IH]; simpl; [reflexivity|].
  destruct (decide (key s = k)) as [E|E].
  - rewrite (bool_decide_eq_true_2 _ (Hf s E)), (bool_decide_eq_true_2 _ E).
    reflexivity.
  - rewrite (bool_decide_eq_false_2 _ E). exact IH.
Qed.

(** Row by row: the key stays, and only rows of key [k] change. *)
Lemma map_key_rows k f rows :
  Forall2 (fun s s' => s' = if decide (key s = k) then f s else s)
          rows (map_key k f rows).
Proof.
  unfold map_key. induction rows as [|s rows IH]; simpl; constructor; auto.
Qed.

Lemma map_key_frame k f rows :
  (forall s, key s = k -> key (f s) = k) ->
  Forall2 (fun s s' => key s' = key s /\ (key s <> k -> s' = s))
          rows (map_key k f rows).
Proof.
  intros Hf. eapply Forall2_impl; [apply map_key_rows|].
  intros s s' ->. simpl. destruct (decide (key s = k)) as [E|E].
  - split; [rewrite (Hf s E); congruence | contradiction].
  - split; [reflexivity | reflexivity].
Qed.

Lemma with_is_active_key b s : key (with_is_active b s) = key s.
Proof. reflexivity. Qed.

Lemma with_is_active_get b s :
  get (data (with_is_active b s)) (js "is_active") = VBool b.
Proof. unfold with_is_active. simpl data. apply get_set_prop. Qed.

Lemma merged_with_assoc draft s f :
  NoDup (map fst draft) -> well_formed (data s) ->
  assoc f (own_entries (data (merged_with draft s)))
  = match assoc f draft with
    | Some v => Some v
    | None => assoc f (own_entries (data s))
    end.
Proof.
  intros Hd Hs. unfold merged_with. simpl data. simpl own_entries.
  rewrite (assoc_spread _ (VObj draft)) by exact Hd. simpl own_entries.
  destruct (assoc f draft); [reflexivity|].
  rewrite (assoc_spread _ (data s)) by exact Hs.
  destruct (assoc f (own_entries (data s))); reflexivity.
Qed.


(** *** Expanding a row *)

(** C1 (what the code does).  [openManage] on the row that is expanded
    collapses the panel, and it sets the draft to a copy of the row's
    data (an empty object when the row is missing): the draft is not
    cleared. *)
Theorem C1_manage_on_expanded_row (k : jsstring) (st : state) :
  expandedKey st = Some k ->
  expandedKey (openManage k st) = None
  /\ editing (openManage k st)
     = Some (match find_row k (services st) with
             | Some s => spread [] (data s)
             | None => []
             end).
Proof.
  intros H. unfold openManage. simpl. rewrite H.
  destruct (decide (Some k = Some k)); [split; reflexivity | contradiction].
Qed.

(** *** Toggling *)

(** C4 (as amended).  For a row [s] of key [k] whose data is not [null]
    or [undefined], [toggleService] sets [is_active] of the row to the
    negation of the truth value of its current value at once and marks
    [k] as toggling; when the PATCH fails, [is_active] is set to that
    truth value, as a boolean (the value it had, when that was a
    boolean), and the error is shown by an alert; and whatever the
    outcome and the state the response meets, the toggling flag of [k]
    is false afterwards. *)
Theorem C4_toggle_optimistic_rollback
    (k : jsstring) (st : state) (s : ServiceRow) :
  find_row k (services st) = Some s ->
  nullish (data s) = false ->
  exists current st1,
    toggleService_begin k st = ToggleSent current st1
    /\ current = truthy (get (data s) (js "is_active"))
    /\ (forall b, get (data s) (js "is_active") = VBool b -> current = b)
    /\ (exists s1, find_row k (services st1) = Some s1
                   /\ get (data s1) (js "is_active") = VBool (negb current))
    /\ toggling st1 !! k = Some true
    /\ (forall r st2,
          toggling (toggleService_settled k current r st2) !! k = Some false)
    /\ (forall r e,
          checked r = RejectedWith e ->
          (exists s3,
              find_row k (services (toggleService_settled k current r st1))
              = Some s3
              /\ get (data s3) (js "is_active") = VBool current)
          /\ alerts (toggleService_settled k current r st1)
             = alerts st ++ [js "Failed to change status: "
                             ++ message_of e (js "Unknown error")]).
Proof.
  intros Hs Hd. unfold toggleService_begin, is_active_of. rewrite Hs, Hd.
  eexists _, _. split; [reflexivity|]. split; [reflexivity|].
  split; [intros b ->; reflexivity|].
  set (current := truthy (get (data s) (js "is_active"))).
  assert (Hkey : forall b s', key s' = k -> key (with_is_active b s') = k)
    by (intros; assumption).
  split; [|split; [|split]].
  - exists (with_is_active (negb current) s). split.
    + simpl. rewrite (find_row_map_key _ _ _ (Hkey _)), Hs. reflexivity.
    + apply with_is_active_get.
  - simpl. apply lookup_insert_eq.
  - intros r st2. unfold toggleService_settled. simpl. apply lookup_insert_eq.
  - intros r e Hr. unfold toggleService_settled. rewrite Hr. simpl. split.
    + exists (with_is_active current (with_is_active (negb current) s)).
      rewrite !(find_row_map_key _ _ _ (Hkey _)), Hs. split; [reflexivity|].
      apply with_is_active_get.
    + reflexivity.
Qed.


(** *** Saving *)

Lemma saveService_begin_draft st draft :
  editing st = Some draft ->
  saveService_begin st = SaveSent draft (set_saving true st).
Proof. intros H. unfold saveService_begin. rewrite H. reflexivity. Qed.


(** C6.  With a draft active, Save sends the PATCH; when it fails, the
    rows, the expanded key and the draft are what they were before the
    click, and the error is shown by an alert. *)
Theorem C6_save_failure_keeps_state
    (k : jsstring) (st : state) (draft : props) :
  editing st = Some draft ->
  exists st1,
    saveService_begin st = SaveSent draft st1
    /\ forall r e,
         checked r = RejectedWith e ->
         saveService_settled k draft r st1
         = alert (js "Failed to save: " ++ message_of e (js "Unknown error"))
                 (set_saving false st)
         /\ services (saveService_settled k draft r st1) = services st
         /\ expandedKey (saveService_settled k draft r st1) = expandedKey st
         /\ editing (saveService_settled k draft r st1) = Some draft
         /\ alerts (saveService_settled k draft r st1)
            = alerts st ++ [js "Failed to save: "
                            ++ message_of e (js "Unknown error")].
Proof.
  intros He. exists (set_saving true st).
  split; [apply saveService_begin_draft, He|].
  intros r e Hr. unfold saveService_settled. rewrite Hr. simpl.
  repeat split; try reflexivity. exact He.
Qed.


(** *** Loading the list *)

Lemma rows_of_entries (es : list (list N * value)) :
  Forall2
    (fun kv row =>
       key row = fst kv
       /\ data row = (if truthy (snd kv) then snd kv else VObj [])
       /\ (nullish (snd kv) = true -> data row = VObj []))
    es (map (fun kv => mkRow (fst kv) (or_else (snd kv) (VObj []))) es).
Proof.
  induction es as [|[k v] es IH]; simpl; constructor; [|exact IH].
  split; [reflexivity|]. split; [reflexivity|].
  simpl. intros Hn. destruct v; try discriminate Hn; reflexivity.
Qed.

Lemma rows_of_json_field body obj :
  assoc (js "payment_services") (own_entries body) = Some obj ->
  rows_of_json body
  = map (fun kv => mkRow (fst kv) (or_else (snd kv) (VObj [])))
        (own_entries (coalesce obj (VObj []))).
Proof.
  intros H. unfold rows_of_json, get_opt.
  assert (Hb : nullish body = false)
    by (destruct body; try reflexivity; discriminate H).
  rewrite Hb, (get_own _ _ _ H). reflexivity.
Qed.

Lemma rows_of_json_absent body :
  assoc (js "payment_services") (own_entries body) = None ->
  rows_of_json body = [].
Proof.
  intros H. unfold rows_of_json, get_opt.
  destruct (nullish body); [reflexivity|].
  rewrite get_api_field_absent; [reflexivity | | exact H].
  apply list_elem_of_here.
Qed.

(** C7.  When the parsed body has a [payment_services] field that is
    neither [null] nor [undefined], the rows are the entries of that
    field, in their order: each row has the key of its entry and the
    value of its entry as data, an empty object standing in for a value
    that is falsy ([null] among them).  When the body has no such field,
    or the field is [null], there is no row.  These rows are what a
    successful GET leaves in [services]. *)
Theorem C7_rows_follow_entries (body : value) :
  (forall obj,
     assoc (js "payment_services") (own_entries body) = Some obj ->
     nullish obj = false ->
     map key (rows_of_json body) = map fst (own_entries obj)
     /\ Forall2
          (fun kv row =>
             key row = fst kv
             /\ data row = (if truthy (snd kv) then snd kv else VObj [])
             /\ (nullish (snd kv) = true -> data row = VObj []))
          (own_entries obj) (rows_of_json body))
  /\ (assoc (js "payment_services") (own_entries body) = None
      \/ assoc (js "payment_services") (own_entries body) = Some VNull ->
      rows_of_json body = [])
  /\ (forall res st,
        ok res = true -> json res = Fulfilled body ->
        services (fetch_settled (Fulfilled res) st) = rows_of_json body
        /\ loading (fetch_settled (Fulfilled res) st) = false
        /\ error (fetch_settled (Fulfilled res) st) = error st).
Proof.
  split; [|split].
  - intros obj Hf Hn. rewrite (rows_of_json_field _ _ Hf).
    unfold coalesce. rewrite Hn. split.
    + rewrite map_map. reflexivity.
    + apply rows_of_entries.
  - intros [H|H]; [exact (rows_of_json_absent _ H)|].
    rewrite (rows_of_json_field _ _ H). reflexivity.
  - intros res st Hok Hj. unfold fetch_settled, checked. rewrite Hok, Hj.
    repeat split; reflexivity.
Qed.

(** *** The rows under toggle and save *)

(** The replacement of a row keeps the key: the side condition of
    [map_key_frame]. *)
Ltac same_key := intros ? ?; simpl; first [reflexivity | assumption].

Lemma toggle_settled_rows k current r st :
  Forall2 (fun s s' => key s' = key s /\ (key s <> k -> s' = s))
          (services st) (services (toggleService_settled k current r st)).
Proof.
  unfold toggleService_settled.
  destruct (checked r) as [res|e]; simpl.
  - destruct (updated_record (json_or_null res) k); simpl.
    + apply map_key_frame; same_key.
    + apply Forall2_same_length_lookup_2; [reflexivity|].
      intros i s s' H1 H2. rewrite H1 in H2. injection H2 as <-. tauto.
  - apply map_key_frame; same_key.
Qed.

Lemma save_settled_rows k draft r st :
  Forall2 (fun s s' => key s' = key s /\ (key s <> k -> s' = s))
          (services st) (services (saveService_settled k draft r st)).
Proof.
  unfold saveService_settled.
  destruct (checked r) as [res|e]; simpl.
  - destruct (updated_record (json_or_null res) k); simpl;
      apply map_key_frame; same_key.
  - apply Forall2_same_length_lookup_2; [reflexivity|].
    intros i s s' H1 H2. rewrite H1 in H2. injection H2 as <-. tauto.
Qed.

Lemma toggle_clicked_rows k w :
  Forall2 (fun s s' => key s' = key s /\ (key s <> k -> s' = s))
          (services (page w)) (services (page (toggle_clicked k w))).
Proof.
  unfold toggle_clicked, toggleService_begin.
  destruct (find_row k (services (page w))) as [s|];
    [destruct (is_active_of s)|]; simpl;
    try (apply map_key_frame; same_key);
    (apply Forall2_same_length_lookup_2; [reflexivity|];
     intros i x x' H1 H2; rewrite H1 in H2; injection H2 as <-; tauto).
Qed.

Lemma save_clicked_rows k w :
  services (page (save_clicked k w)) = services (page w).
Proof.
  unfold save_clicked, saveService_begin.
  destruct (editing (page w)); reflexivity.
Qed.

Lemma rows_same_keys (k : list N) (rows rows' : list ServiceRow) :
  Forall2 (fun s s' => key s' = key s /\ (key s <> k -> s' = s)) rows rows' ->
  map key rows' = map key rows.
Proof.
  induction 1 as [|s s' rows rows' [E _] _ IH]; simpl; [reflexivity|].
  rewrite E, IH. reflexivity.
Qed.

(** C10.  Toggle and save, at the click and when the response arrives,
    leave every row of another key as it is and give every row the key
    it had: the keys, their order and the number of rows stay.  A toggle
    on a key that has no row changes nothing at all. *)
Theorem C10_rows_keep_keys (k : jsstring) (w : world) :
  (Forall2 (fun s s' => key s' = key s /\ (key s <> k -> s' = s))
           (services (page w)) (services (page (toggle_clicked k w)))
   /\ map key (services (page (toggle_clicked k w)))
      = map key (services (page w)))
  /\ (forall current r,
        Forall2 (fun s s' => key s' = key s /\ (key s <> k -> s' = s))
                (services (page w))
                (services (toggleService_settled k current r (page w)))
        /\ map key (services (toggleService_settled k current r (page w)))
           = map key (services (page w)))
  /\ services (page (save_clicked k w)) = services (page w)
  /\ (forall draft r,
        Forall2 (fun s s' => key s' = key s /\ (key s <> k -> s' = s))
                (services (page w))
                (services (saveService_settled k draft r (page w)))
        /\ map key (services (saveService_settled k draft r (page w)))
           = map key (services (page w)))
  /\ (find_row k (services (page w)) = None ->
      toggleService_begin k (page w) = ToggleNoRow
      /\ toggle_clicked k w = w).
Proof.
  split; [|split; [|split; [|split]]].
  - split; [apply toggle_clicked_rows|].
    apply (rows_same_keys k), toggle_clicked_rows.
  - intros current r. split; [apply toggle_settled_rows|].
    apply (rows_same_keys k), toggle_settled_rows.
  - apply save_clicked_rows.
  - intros draft r. split; [apply save_settled_rows|].
    apply (rows_same_keys k), save_settled_rows.
  - intros H. unfold toggle_clicked, toggleService_begin. rewrite H.
    split; reflexivity.
Qed.


(** *** One panel at a time *)

Lemma no_panel_without_row (e : jsstring) (rows : list ServiceRow) :
  e ∉ map key rows -> filter (fun s => Some e = Some (key s)) rows = [].
Proof.
  induction rows as [|s rows IH]; simpl; [reflexivity|].
  rewrite not_elem_of_cons. intros [H1 H2]. rewrite filter_cons.
  destruct (decide (Some e = Some (key s))) as [[= E]|]; [contradiction|].
  apply IH, H2.
Qed.

Lemma one_panel_of_row (b : jsstring) (rows : list ServiceRow) rb :
  NoDup (map key rows) -> find_row b rows = Some rb ->
  filter (fun s => Some b = Some (key s)) rows = [rb].
Proof.
  unfold find_row. induction rows as [|s rows IH]; simpl; [discriminate|].
  intros Hnd. apply NoDup_cons in Hnd as [Hs Hnd]. rewrite filter_cons.
  case_bool_decide as Hk.
  - intros [= <-]. subst b.
    destruct (decide (Some (key s) = Some (key s))); [|contradiction].
    f_equal. apply no_panel_without_row, Hs.
  - intros Hf. destruct (decide (Some b = Some (key s))) as [[= E]|];
      [congruence|]. apply IH; assumption.
Qed.

Lemma panels_at_most_one st :
  NoDup (map key (services st)) -> (length (open_panels st) <= 1)%nat.
Proof.
  unfold open_panels. intros Hnd. destruct (expandedKey st) as [e|].
  - destruct (find_row e (services st)) as [r|] eqn:Hf.
    + rewrite (one_panel_of_row _ _ _ Hnd Hf). simpl. lia.
    + apply find_row_None in Hf. rewrite (no_panel_without_row _ _ Hf).
      simpl. lia.
  - induction (services st) as [|s rows IH]; simpl; [lia|].
    rewrite filter_cons. destruct (decide (None = Some (key s))); [discriminate|].
    apply IH. apply NoDup_cons in Hnd. tauto.
Qed.

Lemma authHeader_effect_rows st :
  services (fst (authHeader_effect st)) = services st.
Proof.
  unfold authHeader_effect. destruct (authHeader st) as [[|c h]|]; reflexivity.
Qed.

Lemma token_effect_rows token w :
  services (page (token_effect token w)) = services (page w).
Proof.
  unfold token_effect. destruct (decide _); [reflexivity|].
  pose proof (authHeader_effect_rows
                (set_authHeader (Auth.deriveAuthHeader token) (page w))) as H.
  destruct (authHeader_effect _) as [st sent]. exact H.
Qed.

Lemma fetch_settled_rows r st :
  parsed r ->
  NoDup (map key (services st)) ->
  NoDup (map key (services (fetch_settled r st))).
Proof.
  intros Hp Hnd. unfold fetch_settled.
  destruct (checked r) as [res|e] eqn:Hc; simpl; [|exact Hnd].
  destruct (json res) as [body|e] eqn:Hj; simpl; [|exact Hnd].
  assert (Hr : r = Fulfilled res).
  { unfold checked in Hc. destruct r as [res'|]; [|discriminate].
    destruct (ok res'); [congruence|]. destruct (text res'); discriminate. }
  unfold rows_of_json. rewrite map_map. simpl.
  apply (Hp res body Hr Hj).
Qed.

(** The rows of a reachable page have pairwise different keys. *)
Lemma step_distinct_keys w w' :
  step w w' ->
  NoDup (map key (services (page w))) ->
  NoDup (map key (services (page w'))).
Proof.
  intros Hstep Hnd. destruct Hstep; cbn [page] in *.
  - rewrite token_effect_rows. exact Hnd.
  - destruct m; [apply fetch_settled_rows; assumption | exact Hnd].
  - exact Hnd.
  - exact Hnd.
  - exact Hnd.
  - rewrite (rows_same_keys k _ _ (toggle_clicked_rows k w)). exact Hnd.
  - rewrite (rows_same_keys k _ _ (toggle_settled_rows k current r st)).
    exact Hnd.
  - rewrite save_clicked_rows. exact Hnd.
  - rewrite (rows_same_keys k _ _ (save_settled_rows k draft r st)).
    exact Hnd.
Qed.

Lemma reachable_distinct_keys w :
  reachable w -> NoDup (map key (services (page w))).
Proof.
  induction 1 as [|w w' _ IH Hstep].
  - apply NoDup_nil_2.
  - exact (step_distinct_keys w w' Hstep IH).
Qed.

(** C8.  In a reachable state at most one panel is open; and when the
    panel of [a] is open, Manage on another row [b] leaves the panel of
    [b] as the only one open. *)
Theorem C8_one_panel_at_a_time (w : world) :
  reachable w ->
  (length (open_panels (page w)) <= 1)%nat
  /\ (forall a b rb,
        expandedKey (page w) = Some a -> a <> b ->
        find_row b (services (page w)) = Some rb ->
        expandedKey (openManage b (page w)) = Some b
        /\ open_panels (openManage b (page w)) = [rb]).
Proof.
  intros Hr. pose proof (reachable_distinct_keys w Hr) as Hnd.
  split; [apply panels_at_most_one, Hnd|].
  intros a b rb Ha Hab Hb.
  assert (He : expandedKey (openManage b (page w)) = Some b).
  { unfold openManage. simpl. rewrite Ha.
    destruct (decide (Some a = Some b)) as [[= E]|]; [contradiction|].
    reflexivity. }
  split; [exact He|]. unfold open_panels. rewrite He.
  apply one_panel_of_row; assumption.
Qed.

(** *** Reachable pages

    The data of a row is never [null] or [undefined], so the toggle of a
    listed row always gets to send its PATCH; and a draft never has two
    fields of the same name. *)

Lemma updated_record_truthy body k d :
  updated_record body k = Some d -> truthy d = true.
Proof.
  unfold updated_record.
  destruct (truthy body); [|discriminate].
  destruct (truthy (get body (js "payment_services"))); [|discriminate].
  simpl. destruct (truthy (get (get body (js "payment_services")) k)) eqn:E;
    [|discriminate].
  intros [= <-]. exact E.
Qed.

Lemma map_key_Forall (Q : ServiceRow -> Prop) k f rows :
  (forall s, Q (f s)) -> Forall Q rows -> Forall Q (map_key k f rows).
Proof.
  intros Hf. unfold map_key. induction 1 as [|s rows Hs _ IH]; simpl;
    constructor; [|exact IH].
  destruct (decide (key s = k)); [apply Hf | exact Hs].
Qed.

Lemma toggle_settled_truthy k current r st :
  rows_truthy st -> rows_truthy (toggleService_settled k current r st).
Proof.
  unfold rows_truthy, toggleService_settled. intros H.
  destruct (checked r) as [res|e]; simpl.
  - destruct (updated_record (json_or_null res) k) as [d|] eqn:Hu; simpl;
      [|exact H].
    apply map_key_Forall; [|exact H].
    intros _. simpl. exact (updated_record_truthy _ _ _ Hu).
  - apply map_key_Forall; [reflexivity | exact H].
Qed.

Lemma save_settled_truthy k draft r st :
  rows_truthy st -> rows_truthy (saveService_settled k draft r st).
Proof.
  unfold rows_truthy, saveService_settled. intros H.
  destruct (checked r) as [res|e]; simpl; [|exact H].
  destruct (updated_record (json_or_null res) k) as [d|] eqn:Hu; simpl.
  - apply map_key_Forall; [|exact H].
    intros _. simpl. exact (updated_record_truthy _ _ _ Hu).
  - apply map_key_Forall; [reflexivity | exact H].
Qed.

Lemma fetch_settled_truthy r st :
  rows_truthy st -> rows_truthy (fetch_settled r st).
Proof.
  unfold rows_truthy, fetch_settled. intros H.
  destruct (checked r) as [res|e]; simpl; [|exact H].
  destruct (json res) as [body|e]; simpl; [|exact H].
  unfold rows_of_json. apply Forall_map, Forall_forall.
  intros [k v] _. simpl. unfold or_else.
  destruct (truthy v) eqn:E; [exact E | reflexivity].
Qed.

Lemma toggle_clicked_truthy k w :
  rows_truthy (page w) -> rows_truthy (page (toggle_clicked k w)).
Proof.
  unfold rows_truthy, toggle_clicked, toggleService_begin. intros H.
  destruct (find_row k (services (page w))) as [s|]; [|exact H].
  destruct (is_active_of s); [|exact H]. simpl.
  apply map_key_Forall; [reflexivity | exact H].
Qed.

Lemma reachable_rows_truthy w : reachable w -> rows_truthy (page w).
Proof.
  induction 1 as [|w w' _ IH Hstep]; [apply Forall_nil_2|].
  destruct Hstep; cbn [page] in *.
  - unfold rows_truthy. rewrite token_effect_rows. exact IH.
  - destruct m; [apply fetch_settled_truthy, IH | exact IH].
  - exact IH.
  - exact IH.
  - exact IH.
  - apply toggle_clicked_truthy, IH.
  - apply toggle_settled_truthy, IH.
  - unfold rows_truthy. rewrite save_clicked_rows. exact IH.
  - apply save_settled_truthy, IH.
Qed.

(** On a reachable page the toggle of a row that exists sends its
    request: reading [is_active] does not throw. *)
Lemma reachable_toggle_sends w k s :
  reachable w -> find_row k (services (page w)) = Some s ->
  exists st', toggleService_begin k (page w)
              = ToggleSent (truthy (get (data s) (js "is_active"))) st'.
Proof.
  intros Hr Hs. pose proof (reachable_rows_truthy w Hr) as Ht.
  assert (Hd : nullish (data s) = false).
  { unfold find_row in Hs. apply find_some in Hs as [Hin _].
    unfold rows_truthy in Ht. rewrite Forall_forall in Ht.
    apply list_elem_of_In in Hin. specialize (Ht s Hin).
    destruct (data s); try discriminate Ht; reflexivity. }
  unfold toggleService_begin, is_active_of. rewrite Hs, Hd. eauto.
Qed.

Lemma reachable_drafts_distinct w : reachable w -> drafts_distinct w.
Proof.
  induction 1 as [|w w' _ [IHe IHq] Hstep].
  - split; [discriminate | apply Forall_nil_2].
  - destruct Hstep; unfold drafts_distinct; cbn [page inflight] in *.
    + unfold token_effect. destruct (decide _); [split; assumption|].
      unfold authHeader_effect.
      destruct (authHeader (set_authHeader _ _)) as [[|c h]|];
        cbn [page inflight]; (split; [exact IHe|]);
        (apply Forall_app; split; [|repeat constructor]);
        apply Forall_map; (eapply Forall_impl; [exact IHq|]);
        intros []; simpl; trivial.
    + apply Forall_app in IHq as [Hb Ha]. apply Forall_cons in Ha as [_ Ha].
      split; [|apply Forall_app; split; assumption].
      destruct m; [|exact IHe]. unfold fetch_settled.
      destruct (checked r) as [res|e]; simpl; [|exact IHe].
      destruct (json res); simpl; exact IHe.
    + split; [|exact IHq]. unfold openManage. simpl. intros d [= <-].
      destruct (find_row k (services (page w)));
        [apply spread_distinct|]; apply NoDup_nil_2.
    + split; [discriminate | exact IHq].
    + split; [|exact IHq]. unfold editField. simpl. intros d [= <-].
      apply set_prop_distinct, spread_distinct, NoDup_nil_2.
    + unfold toggle_clicked, toggleService_begin.
      destruct (find_row k (services (page w))) as [s|]; [|split; assumption].
      destruct (is_active_of s); [|split; assumption]. cbn [page inflight].
      split; [exact IHe|]. apply Forall_app. split; [exact IHq|].
      repeat constructor.
    + apply Forall_app in IHq as [Hb Ha]. apply Forall_cons in Ha as [_ Ha].
      split; [|apply Forall_app; split; assumption].
      unfold toggleService_settled. destruct (checked r) as [res|e]; simpl.
      * destruct (updated_record (json_or_null res) k); exact IHe.
      * exact IHe.
    + unfold save_clicked, saveService_begin.
      destruct (editing (page w)) as [d|] eqn:Hd; [|split; [|exact IHq]].
      * cbn [page inflight]. split; [simpl; rewrite Hd; exact IHe|].
        apply Forall_app. split; [exact IHq|].
        constructor; [exact (IHe d eq_refl) | constructor].
      * rewrite Hd. discriminate.
    + apply Forall_app in IHq as [Hb Ha]. apply Forall_cons in Ha as [_ Ha].
      split; [|apply Forall_app; split; assumption].
      unfold saveService_settled. destruct (checked r) as [res|e]; simpl.
      * discriminate.
      * exact IHe.
Qed.

End WithPrototypes.

(** *** Sample runs, with the standard prototypes *)

#[local] Existing Instance standard_prototypes.

Lemma C1_failing_input :
  expandedKey Samples.editing_page = Some Samples.cod
  /\ expandedKey (openManage Samples.cod Samples.editing_page) = None
  /\ editing (openManage Samples.cod Samples.editing_page)
     = Some (own_entries Samples.cod_data).
Proof.
  split; [reflexivity|].
  destruct (C1_manage_on_expanded_row Samples.cod Samples.editing_page
              eq_refl) as [H1 H2].
  split; [exact H1|]. rewrite H2. reflexivity.
Defined.

Lemma C4_witness :
  find_row Samples.cod (services Samples.listed_page) = Some Samples.row_cod
  /\ nullish (data Samples.row_cod) = false
  /\ exists current st1,
       toggleService_begin Samples.cod Samples.listed_page
       = ToggleSent current st1
       /\ current = false
       /\ toggling (toggleService_settled Samples.cod current
                      Samples.server_error st1) !! Samples.cod = Some false
       /\ (exists s3,
             find_row Samples.cod
               (services (toggleService_settled Samples.cod current
                            Samples.server_error st1)) = Some s3
             /\ get (data s3) (js "is_active") = VBool current)
       /\ alerts (toggleService_settled Samples.cod current
                    Samples.server_error st1)
          = [js "Failed to change status: 500 Internal Server Error - boom"].
Proof.
  split; [reflexivity|]. split; [reflexivity|].
  destruct (C4_toggle_optimistic_rollback Samples.cod Samples.listed_page
              Samples.row_cod eq_refl eq_refl)
    as (current & st1 & Hb & Hc & _ & _ & _ & Hflag & Hfail).
  exists current, st1. split; [exact Hb|]. split; [rewrite Hc; reflexivity|].
  split; [apply Hflag|].
  exact (Hfail Samples.server_error
           (ErrorObject (js "500 Internal Server Error - boom")) eq_refl).
Defined.

(** C4 fails as stated.  The row [upi] has no [is_active]; a toggle that
    fails leaves it with [is_active: false], which is not the value it
    had before the toggle (it had none). *)
Lemma C4_counterexample :
  find_row Scenarios.upi (services Scenarios.upi_page) = Some Scenarios.row_upi
  /\ assoc (js "is_active") (own_entries (data Scenarios.row_upi)) = None
  /\ get (data Scenarios.row_upi) (js "is_active") = VUndef
  /\ Scenarios.upi_toggle_failed
     = Some (false,
             [mkRow Scenarios.upi (VObj [(js "is_active", VBool false)])]).
Proof. vm_compute. repeat split; reflexivity. Qed.


(** The example of the specification: the draft [{url: ..}] saved on
    [cod]. *)
Example save_url_on_cod :
  let st := saveService_settled Samples.cod Samples.draft_url
              Samples.ok_empty (set_saving true Samples.editing_page) in
  services st
  = [Samples.row_razorpay;
     mkRow Samples.cod
       (VObj [(js "name", VStr (js "Cash on delivery"));
              (js "url", VStr (js "https://x"));
              (js "is_active", VBool false)])]
  /\ expandedKey st = None /\ editing st = None /\ saving st = false.
Proof. vm_compute. repeat split; reflexivity. Qed.

Lemma C6_witness :
  editing Samples.editing_page = Some Samples.draft_url
  /\ exists st1,
       saveService_begin Samples.editing_page
       = SaveSent Samples.draft_url st1
       /\ expandedKey (saveService_settled Samples.cod Samples.draft_url
                         Samples.server_error st1) = Some Samples.cod
       /\ editing (saveService_settled Samples.cod Samples.draft_url
                     Samples.server_error st1) = Some Samples.draft_url.
Proof.
  split; [reflexivity|].
  destruct (C6_save_failure_keeps_state Samples.cod Samples.editing_page
              Samples.draft_url eq_refl) as (st1 & Hb & Hs).
  exists st1. split; [exact Hb|].
  destruct (Hs Samples.server_error
              (ErrorObject (js "500 Internal Server Error - boom")) eq_refl)
    as (_ & _ & H2 & H3 & _).
  split; [exact H2 | exact H3].
Defined.

Lemma C7_witness :
  assoc (js "payment_services") (own_entries Samples.list_body)
  = Some (VObj [(Samples.razorpay, Samples.razorpay_data);
                (Samples.cod, Samples.cod_data)])
  /\ map key (rows_of_json Samples.list_body) = [Samples.razorpay; Samples.cod]
  /\ rows_of_json (VObj [(js "other", VNull)]) = [].
Proof.
  split; [reflexivity|]. split.
  - apply (proj1 (C7_rows_follow_entries Samples.list_body)
             (VObj [(Samples.razorpay, Samples.razorpay_data);
                    (Samples.cod, Samples.cod_data)]) eq_refl eq_refl).
  - apply (proj1 (proj2 (C7_rows_follow_entries (VObj [(js "other", VNull)])))).
    left. reflexivity.
Defined.

(** The example of the specification: the order [razorpay], [cod]. *)
Example rows_keep_order :
  map key (rows_of_json Samples.list_body) = [Samples.razorpay; Samples.cod].
Proof. reflexivity. Qed.

Example rows_null_value :
  rows_of_json (VObj [(js "payment_services", VObj [(js "upi", VNull)])])
  = [mkRow (js "upi") (VObj [])].
Proof. reflexivity. Qed.

Lemma C10_witness :
  find_row (js "upi") (services (page Samples.w_listed)) = None
  /\ toggle_clicked (js "upi") Samples.w_listed = Samples.w_listed
  /\ map key (services (page (toggle_clicked Samples.cod Samples.w_listed)))
     = [Samples.razorpay; Samples.cod].
Proof.
  split; [reflexivity|]. split.
  - apply (C10_rows_keep_keys (js "upi") Samples.w_listed). reflexivity.
  - rewrite (proj2 (proj1 (C10_rows_keep_keys Samples.cod Samples.w_listed))).
    reflexivity.
Defined.

Lemma sample_reachable : reachable Samples.w_managing.
Proof.
  apply (reach_step Samples.w_listed).
  - apply (reach_step Samples.w_loading).
    + apply (reach_step after_mount); [apply reach_mount | apply step_token].
    + change Samples.w_loading
        with (mkWorld (page Samples.w_loading) ([] ++ GetList true :: [])).
      apply (step_get_settled true Samples.list_response).
      intros res body [= <-] [= <-]. unfold well_formed. vm_compute.
      apply NoDup_cons. split.
      * intros H. apply list_elem_of_singleton in H. discriminate H.
      * apply NoDup_singleton.
  - apply step_manage. split; [reflexivity|]. split; [left; reflexivity|].
    apply list_elem_of_here.
Qed.

Lemma C8_witness :
  reachable Samples.w_managing
  /\ open_panels (page Samples.w_managing) = [Samples.row_razorpay]
  /\ (length (open_panels (page Samples.w_managing)) <= 1)%nat
  /\ open_panels (openManage Samples.cod (page Samples.w_managing))
     = [Samples.row_cod].
Proof.
  split; [exact sample_reachable|]. split; [reflexivity|].
  destruct (C8_one_panel_at_a_time Samples.w_managing sample_reachable)
    as [H1 H2].
  split; [exact H1|].
  apply (H2 Samples.razorpay Samples.cod Samples.row_cod);
    [reflexivity | discriminate | reflexivity].
Defined.

End PageFacts.

Module CardFacts.
Import JsString Js Cards.

Section WithPrototypes.
Context {P : Prototypes}.

(** C9.  Whatever data the registry is built from, the sales card and the
    recent-users card render [null] and [undefined] with an empty array
    in place of the missing sequence, the other two cards render the same
    element for every argument, and the registry does not depend on its
    argument; all of it is total. *)
Theorem C9_cards_tolerate_missing_data (d : value) :
  (render (makeCardDescriptors d card_sales) VNull
   = mkElement SalesChart [(js "salesData", VArr [])]
   /\ render (makeCardDescriptors d card_sales) VUndef
      = mkElement SalesChart [(js "salesData", VArr [])])
  /\ (render (makeCardDescriptors d card_recent_users) VNull
      = mkElement RecentUsersTable [(js "users", VArr [])]
      /\ render (makeCardDescriptors d card_recent_users) VUndef
         = mkElement RecentUsersTable [(js "users", VArr [])])
  /\ (forall x,
        render (makeCardDescriptors d card_sales_source) x
        = mkElement SalesSourceCard []
        /\ render (makeCardDescriptors d card_transactions) x
           = mkElement Transactions [])
  /\ (forall c, id (makeCardDescriptors d c)
               = match c with
                 | card_sales => js "card-sales"
                 | card_sales_source => js "card-sales-source"
                 | card_transactions => js "card-transactions"
                 | card_recent_users => js "card-recent-users"
                 end)
  /\ (forall d', makeCardDescriptors d' = makeCardDescriptors d).
Proof.
  repeat split; try reflexivity. destruct c; reflexivity.
Qed.

End WithPrototypes.

(** *** Sample runs, with the standard prototypes *)

#[local] Existing Instance standard_prototypes.

(** Data that is present is passed on. *)
Example sales_card_with_data :
  render (makeCardDescriptors VNull card_sales)
         (VObj [(js "salesChart", VArr [VNum 3%float])])
  = mkElement SalesChart [(js "salesData", VArr [VNum 3%float])].
Proof. reflexivity. Qed.

End CardFacts.

(* ===================================================================== *)
(** * Further properties *)
(* ===================================================================== *)

Module AuthMore.
Import JsString Auth AuthSpec AuthFacts.

Lemma trimEnd_snoc l c : is_space c = false -> trimEnd (l ++ [c]) = l ++ [c].
Proof.
  intros Hc. unfold trimEnd. rewrite rev_app_distr. simpl. rewrite Hc.
  simpl. rewrite rev_involutive. reflexivity.
Qed.

Lemma quoted_tail_broken m :
  forallb (fun c => negb (is_line_terminator c)) m = false ->
  quoted_tail (m ++ [34]) = None.
Proof.
  intros H. destruct (quoted_tail (m ++ [34])) as [m'|] eqn:E; [|reflexivity].
  apply quoted_tail_iff in E as [E F]. apply app_inj_tail in E as [-> _].
  congruence.
Qed.

(** X1.  A token wrapped in double quotes is sanitised to its trimmed
    content when no line terminator lies between the quotes, and is left
    as it is, quotes included, when one does. *)
Theorem X1_sanitize_quoted (m : jsstring) :
  sanitizeToken (Some (34 :: m ++ [34]))
  = Some (if forallb (fun c => negb (is_line_terminator c)) m
          then trim m
          else 34 :: m ++ [34]).
Proof.
  unfold sanitizeToken. rewrite replace_quoted. unfold unquote. simpl N.eqb.
  cbv iota.
  destruct (forallb _ m) eqn:H.
  - rewrite (quoted_tail_complete _ H). reflexivity.
  - rewrite (quoted_tail_broken _ H). f_equal.
    unfold trim. simpl trimStart.
    change (34 :: m ++ [34]) with ((34 :: m) ++ [34]).
    apply trimEnd_snoc. reflexivity.
Qed.

Lemma trimEnd_fixed_last c y :
  trimEnd c = c -> last c = Some y -> is_space y = false.
Proof.
  intros H Hl. unfold trimEnd in H.
  assert (Hr : trimStart (rev c) = rev c).
  { rewrite <- H at 2. rewrite rev_involutive. reflexivity. }
  destruct c as [|x c'] using rev_ind; [discriminate Hl|].
  rewrite last_snoc in Hl. injection Hl as ->.
  rewrite rev_app_distr in Hr. simpl in Hr.
  exact (trimStart_fixed_head _ _ Hr).
Qed.

Lemma trim_ends s :
  (forall x, head (trim s) = Some x -> is_space x = false)
  /\ (forall y, last (trim s) = Some y -> is_space y = false).
Proof.
  split.
  - intros x Hx. pose proof (trimStart_trim s) as H.
    destruct (trim s) as [|c r]; [discriminate Hx|].
    injection Hx as ->. exact (trimStart_fixed_head _ _ H).
  - intros y. apply trimEnd_fixed_last, trimEnd_trim.
Qed.

(** X2.  What [sanitizeToken] returns neither begins nor ends with a
    white-space character, and sanitising it leaves it trimmed as it is. *)
Theorem X2_sanitized_is_trimmed (raw : option jsstring) (c : jsstring) :
  sanitizeToken raw = Some c ->
  (forall x, head c = Some x -> is_space x = false)
  /\ (forall y, last c = Some y -> is_space y = false)
  /\ trim c = c.
Proof.
  unfold sanitizeToken. destruct raw as [[|x t]|]; try discriminate.
  intros [= <-]. destruct (trim_ends (replace_by_group1 re_quoted (x :: t)))
    as [H1 H2].
  split; [exact H1|]. split; [exact H2 | apply trim_idem].
Qed.

Lemma X2_witness :
  sanitizeToken (Some (js "  abc def  ")) = Some (js "abc def")
  /\ trim (js "abc def") = js "abc def".
Proof.
  split; [reflexivity|].
  apply (X2_sanitized_is_trimmed (Some (js "  abc def  ")) (js "abc def")).
  reflexivity.
Defined.

Lemma derived_header_shape raw h :
  deriveAuthHeader raw = Some h ->
  h <> [] /\ hasScheme h = true /\ trim h = h.
Proof.
  destruct raw as [[|x t]|]; try discriminate.
  unfold deriveAuthHeader, sanitizeToken.
  destruct (trim (replace_by_group1 re_quoted (x :: t))) as [|y cs] eqn:Ec;
    [discriminate|].
  assert (Ht : trim (y :: cs) = y :: cs) by (rewrite <- Ec; apply trim_idem).
  unfold buildHeaderFromRaw. destruct (hasScheme (y :: cs)) eqn:Hs;
    intros E; apply (inj Some) in E; subst h.
  - split; [discriminate|]. split; assumption.
  - split; [destruct PREFERRED_SCHEME; discriminate|].
    split; [apply hasScheme_prefixed|].
    rewrite <- Ec. apply (trim_prefixed 84 (js "oken ")); [reflexivity|].
    rewrite Ec. discriminate.
Qed.

(** X3.  Every header that is derived is not empty, begins with a scheme
    ([Bearer] or [Token], in any case, and white space) and has no white
    space around it. *)
Theorem X3_derived_header_has_scheme (raw : option jsstring) (h : jsstring) :
  deriveAuthHeader raw = Some h ->
  h <> []
  /\ (begins_with_scheme (js "Bearer") h || begins_with_scheme (js "Token") h)
     = true
  /\ trim h = h.
Proof.
  intros H. destruct (derived_header_shape raw h H) as (H1 & H2 & H3).
  rewrite hasScheme_spec in H2. auto.
Qed.

Lemma X3_witness :
  deriveAuthHeader (Some (js " abc ")) = Some (js "Token abc")
  /\ trim (js "Token abc") = js "Token abc".
Proof.
  split; [reflexivity|].
  apply (X3_derived_header_has_scheme (Some (js " abc ")) (js "Token abc")).
  reflexivity.
Defined.

End AuthMore.

Module ScreenFacts.
Import JsString Js Page Screen JsFacts PageFacts.

(** *** [prettifyKey] *)

Lemma upper_word_char_word c :
  is_word_char (upper_word_char c) = is_word_char c.
Proof.
  unfold upper_word_char. destruct (is_lower c) eqn:E; [|reflexivity].
  unfold is_lower in E. apply andb_prop in E as [E1 E2].
  unfold is_word_char. rewrite E1, E2.
  apply N.leb_le in E1, E2.
  assert (H1 : (65 <=? c - 32) = true) by (apply N.leb_le; lia).
  assert (H2 : (c - 32 <=? 90) = true) by (apply N.leb_le; lia).
  rewrite H1, H2. simpl. destruct ((65 <=? c) && (c <=? 90)); reflexivity.
Qed.

Lemma lower_is_word c : is_lower c = true -> is_word_char c = true.
Proof.
  unfold is_lower, is_word_char. intros ->.
  destruct ((65 <=? c) && (c <=? 90)); reflexivity.
Qed.

Lemma upper_word_char_not_lower c : is_lower (upper_word_char c) = false.
Proof.
  unfold upper_word_char. destruct (is_lower c) eqn:E; [|exact E].
  unfold is_lower in *. apply andb_prop in E as [E1 E2].
  apply N.leb_le in E1, E2. apply andb_false_iff. left.
  apply N.leb_gt. lia.
Qed.

Lemma upper_word_char_idem c :
  upper_word_char (upper_word_char c) = upper_word_char c.
Proof.
  unfold upper_word_char at 1. rewrite upper_word_char_not_lower. reflexivity.
Qed.

Lemma upper_word_char_plain c :
  c <> 95 -> c <> 46 -> upper_word_char c <> 95 /\ upper_word_char c <> 46.
Proof.
  intros H1 H2. unfold upper_word_char. destruct (is_lower c) eqn:E; [|auto].
  unfold is_lower in E. apply andb_prop in E as [E1 E2].
  apply N.leb_le in E1, E2. split; lia.
Qed.

Lemma replaced_plain k :
  Forall plain (replaceAll_char 46 32 (replaceAll_char 95 32 k)).
Proof.
  unfold replaceAll_char. rewrite map_map. apply Forall_map, Forall_forall.
  intros c _. simpl. unfold plain.
  destruct (N.eqb_spec c 95) as [->|H1]; simpl; [split; discriminate|].
  destruct (N.eqb_spec c 46) as [->|H2]; [split; discriminate | auto].
Qed.

Lemma replace_plain t :
  Forall plain t -> replaceAll_char 46 32 (replaceAll_char 95 32 t) = t.
Proof.
  unfold replaceAll_char. rewrite map_map. induction 1 as [|c t [H1 H2] _ IH];
    simpl; [reflexivity|].
  apply N.eqb_neq in H1, H2. rewrite H1, H2, IH. reflexivity.
Qed.

Lemma upper_word_starts_plain p t :
  Forall plain t -> Forall plain (upper_word_starts p t).
Proof.
  intros H. revert p. induction H as [|c t [H1 H2] _ IH]; intros p; simpl;
    constructor; [|apply IH].
  destruct (is_word_char c && negb p); [|split; assumption].
  apply upper_word_char_plain; assumption.
Qed.

Lemma upper_word_starts_idem p t :
  upper_word_starts p (upper_word_starts p t) = upper_word_starts p t.
Proof.
  revert p. induction t as [|c t IH]; intros p; simpl; [reflexivity|].
  destruct (is_word_char c && negb p) eqn:E.
  - rewrite upper_word_char_word, E, upper_word_char_idem, IH. reflexivity.
  - rewrite E, IH. reflexivity.
Qed.

(** X4.  [prettifyKey] applied to its own result changes nothing. *)
Theorem X4_prettifyKey_idempotent (k : jsstring) :
  prettifyKey (prettifyKey k) = prettifyKey k.
Proof.
  unfold prettifyKey at 1.
  rewrite replace_plain.
  - unfold prettifyKey. apply upper_word_starts_idem.
  - unfold prettifyKey. apply upper_word_starts_plain, replaced_plain.
Qed.

Lemma upper_word_starts_pointwise p t :
  Forall2 (fun c r => r = c \/ (is_lower c = true /\ r = c - 32))
          t (upper_word_starts p t).
Proof.
  revert p. induction t as [|c t IH]; intros p; simpl; constructor;
    [|apply IH].
  destruct (is_word_char c && negb p); [|left; reflexivity].
  unfold upper_word_char. destruct (is_lower c); [right|left]; auto.
Qed.

(** X5.  [prettifyKey] works character by character: an underscore or a
    dot becomes a space, a lowercase ASCII letter stays or becomes its
    capital, and every other character stays.  So the label has the
    length of the key and no underscore or dot in it. *)
Theorem X5_prettifyKey_pointwise (k : jsstring) :
  Forall2 (fun c r =>
             if (c =? 95) || (c =? 46) then r = 32
             else r = c \/ (is_lower c = true /\ r = c - 32))
          k (prettifyKey k)
  /\ length (prettifyKey k) = length k
  /\ Forall (fun r => r <> 95 /\ r <> 46) (prettifyKey k).
Proof.
  assert (H : Forall2 (fun c r =>
                         if (c =? 95) || (c =? 46) then r = 32
                         else r = c \/ (is_lower c = true /\ r = c - 32))
                      k (prettifyKey k)).
  { unfold prettifyKey. generalize false.
    induction k as [|c k IH]; intros p; simpl; constructor; [|apply IH].
    destruct (N.eqb_spec c 95) as [->|H1]; [reflexivity|].
    simpl. destruct (N.eqb_spec c 46) as [->|H2]; [reflexivity|].
    destruct (is_word_char c && negb p); [|left; reflexivity].
    unfold upper_word_char. destruct (is_lower c); [right|left]; auto. }
  split; [exact H|]. split.
  - symmetry. exact (Forall2_length _ _ _ H).
  - apply upper_word_starts_plain, replaced_plain.
Qed.

Lemma upper_word_starts_lower p t i c :
  upper_word_starts p t !! i = Some c -> is_lower c = true ->
  match i with
  | O => p = true
  | S j => exists q, upper_word_starts p t !! j = Some q
                     /\ is_word_char q = true
  end.
Proof.
  revert p i. induction t as [|x t IH]; intros p i; simpl; [discriminate|].
  destruct i as [|i]; simpl.
  - intros [= <-] Hl. destruct p; [reflexivity|]. rewrite andb_true_r in Hl.
    destruct (is_word_char x) eqn:Hw.
    + rewrite upper_word_char_not_lower in Hl. discriminate.
    + rewrite (lower_is_word _ Hl) in Hw. discriminate.
  - intros Hc Hl. specialize (IH _ _ Hc Hl). destruct i as [|i].
    + simpl in IH. simpl. eexists. split; [reflexivity|].
      destruct (is_word_char x && negb p);
        [rewrite upper_word_char_word|]; exact IH.
    + exact IH.
Qed.

(** X6.  In a label made by [prettifyKey] a lowercase ASCII letter is
    never the first character and always follows a letter, a digit or an
    underscore: every word begins with a capital or with a character that
    has none. *)
Theorem X6_prettifyKey_word_starts (k : jsstring) (i : nat) (c : N) :
  prettifyKey k !! i = Some c -> is_lower c = true ->
  exists j q, i = S j /\ prettifyKey k !! j = Some q
              /\ is_word_char q = true.
Proof.
  intros Hc Hl. unfold prettifyKey in *.
  pose proof (upper_word_starts_lower _ _ _ _ Hc Hl) as H.
  destruct i as [|j]; simpl in H; [discriminate H|].
  destruct H as (q & Hq & Hw). eauto.
Qed.

Lemma X6_witness :
  prettifyKey (js "cash_on_delivery") = js "Cash On Delivery"
  /\ exists j q, 1%nat = S j
                 /\ prettifyKey (js "cash_on_delivery") !! j = Some q
                 /\ is_word_char q = true.
Proof.
  split; [reflexivity|].
  apply (X6_prettifyKey_word_starts (js "cash_on_delivery") 1 97);
    reflexivity.
Defined.

End ScreenFacts.

Module TraceFacts.
Import JsString Js Page Screen JsFacts PageFacts.

Section WithPrototypes.
Context {P : Prototypes}.

(** *** The narrower steps are steps of the screen *)

Lemma listed_on_screen k st : listed k st -> on_screen k st.
Proof.
  intros (H1 & H2 & H3). split; [exact H1|]. split; [|exact H3].
  unfold error_shown. destruct H2 as [-> | ->]; reflexivity.
Qed.

Lemma step_ui w w' : step w w' -> ui_step w w'.
Proof.
  destruct 1; econstructor; eauto using listed_on_screen.
Qed.

Lemma reachable_ui w : reachable w -> ui_reachable w.
Proof.
  induction 1 as [|w w' _ IH Hs]; [apply ui_mount|].
  exact (ui_next w w' IH (step_ui w w' Hs)).
Qed.

(** *** What each handler leaves alone *)

Ltac frame :=
  repeat match goal with
         | |- context [match ?x with _ => _ end] => destruct x
         end;
  simpl; repeat split; reflexivity.

Lemma fetch_settled_frame r st :
  authHeader (fetch_settled r st) = authHeader st
  /\ expandedKey (fetch_settled r st) = expandedKey st
  /\ editing (fetch_settled r st) = editing st
  /\ saving (fetch_settled r st) = saving st
  /\ toggling (fetch_settled r st) = toggling st
  /\ alerts (fetch_settled r st) = alerts st
  /\ loading (fetch_settled r st) = false.
Proof. unfold fetch_settled. frame. Qed.

Lemma toggle_settled_frame k current r st :
  authHeader (toggleService_settled k current r st) = authHeader st
  /\ loading (toggleService_settled k current r st) = loading st
  /\ error (toggleService_settled k current r st) = error st
  /\ expandedKey (toggleService_settled k current r st) = expandedKey st
  /\ editing (toggleService_settled k current r st) = editing st
  /\ saving (toggleService_settled k current r st) = saving st
  /\ toggling (toggleService_settled k current r st)
     = <[k := false]> (toggling st).
Proof. unfold toggleService_settled. frame. Qed.

Lemma save_settled_frame k draft r st :
  authHeader (saveService_settled k draft r st) = authHeader st
  /\ loading (saveService_settled k draft r st) = loading st
  /\ error (saveService_settled k draft r st) = error st
  /\ toggling (saveService_settled k draft r st) = toggling st
  /\ saving (saveService_settled k draft r st) = false.
Proof. unfold saveService_settled. frame. Qed.

Lemma toggle_begin_frame k st current st' :
  toggleService_begin k st = ToggleSent current st' ->
  authHeader st' = authHeader st
  /\ loading st' = loading st
  /\ error st' = error st
  /\ expandedKey st' = expandedKey st
  /\ editing st' = editing st
  /\ saving st' = saving st
  /\ alerts st' = alerts st
  /\ toggling st' = <[k := true]> (toggling st).
Proof.
  unfold toggleService_begin. destruct (find_row k (services st)) as [s|];
    [|discriminate].
  destruct (is_active_of s); [|discriminate].
  intros [= _ <-]. simpl. repeat split; reflexivity.
Qed.

Lemma authHeader_effect_frame st :
  authHeader (fst (authHeader_effect st)) = authHeader st
  /\ services (fst (authHeader_effect st)) = services st
  /\ expandedKey (fst (authHeader_effect st)) = expandedKey st
  /\ editing (fst (authHeader_effect st)) = editing st
  /\ saving (fst (authHeader_effect st)) = saving st
  /\ toggling (fst (authHeader_effect st)) = toggling st
  /\ alerts (fst (authHeader_effect st)) = alerts st
  /\ loading (fst (authHeader_effect st)) = snd (authHeader_effect st).
Proof.
  unfold authHeader_effect.
  destruct (authHeader st) as [[|c h]|] eqn:E; simpl; rewrite ?E;
    repeat split; reflexivity.
Qed.

Lemma token_effect_page token w :
  page (token_effect token w)
  = if decide (Auth.deriveAuthHeader token = authHeader (page w))
    then page w
    else fst (authHeader_effect
                (set_authHeader (Auth.deriveAuthHeader token) (page w))).
Proof.
  unfold token_effect. destruct (decide _); [reflexivity|].
  destruct (authHeader_effect _); reflexivity.
Qed.

Lemma token_effect_inflight token w :
  inflight (token_effect token w)
  = if decide (Auth.deriveAuthHeader token = authHeader (page w))
    then inflight w
    else map unmount (inflight w)
         ++ (if snd (authHeader_effect
                       (set_authHeader (Auth.deriveAuthHeader token) (page w)))
             then [GetList true] else []).
Proof.
  unfold token_effect. destruct (decide _); [reflexivity|].
  destruct (authHeader_effect _); reflexivity.
Qed.

Lemma token_effect_frame token w :
  services (page (token_effect token w)) = services (page w)
  /\ expandedKey (page (token_effect token w)) = expandedKey (page w)
  /\ editing (page (token_effect token w)) = editing (page w)
  /\ saving (page (token_effect token w)) = saving (page w)
  /\ toggling (page (token_effect token w)) = toggling (page w)
  /\ alerts (page (token_effect token w)) = alerts (page w).
Proof.
  rewrite token_effect_page. destruct (decide _); [repeat split|].
  destruct (authHeader_effect_frame
              (set_authHeader (Auth.deriveAuthHeader token) (page w)))
    as (_ & H1 & H2 & H3 & H4 & H5 & H6 & _).
  rewrite H1, H2, H3, H4, H5, H6. repeat split.
Qed.

(** *** Counting the requests in flight *)

Lemma count_app p a b : count p (a ++ b) = (count p a + count p b)%nat.
Proof. unfold count. rewrite List.filter_app, length_app. reflexivity. Qed.

Lemma count_cons p q qs : count p (q :: qs) = (flag (p q) + count p qs)%nat.
Proof. unfold count, flag. simpl. destruct (p q); reflexivity. Qed.

Lemma count_remove p before q after :
  count p (before ++ q :: after)
  = (flag (p q) + count p (before ++ after))%nat.
Proof. rewrite !count_app, count_cons. lia. Qed.

Lemma count_unmount p qs :
  (forall q, p (unmount q) = p q) -> count p (map unmount qs) = count p qs.
Proof.
  intros H. induction qs as [|q qs IH]; [reflexivity|].
  simpl map. rewrite !count_cons, H, IH. reflexivity.
Qed.

Lemma count_unmount_live qs : count is_live_get (map unmount qs) = 0%nat.
Proof.
  induction qs as [|q qs IH]; [reflexivity|].
  simpl map. rewrite count_cons, IH. destruct q; reflexivity.
Qed.

Lemma count_token p token w :
  (forall q, p (unmount q) = p q) -> p (GetList true) = false ->
  count p (inflight (token_effect token w)) = count p (inflight w).
Proof.
  intros H1 H2. rewrite token_effect_inflight. destruct (decide _);
    [reflexivity|].
  rewrite count_app, (count_unmount _ _ H1).
  destruct (snd _); [rewrite count_cons, H2|]; simpl; unfold count; simpl; lia.
Qed.

Lemma toggle_clicked_cases k w :
  toggle_clicked k w = w
  \/ exists current st',
       toggleService_begin k (page w) = ToggleSent current st'
       /\ toggle_clicked k w
          = mkWorld st' (inflight w ++ [PatchToggle k current]).
Proof.
  unfold toggle_clicked. destruct (toggleService_begin k (page w)); eauto.
Qed.

Lemma save_clicked_cases k w :
  (editing (page w) = None /\ save_clicked k w = w)
  \/ exists draft,
       editing (page w) = Some draft
       /\ save_clicked k w
          = mkWorld (set_saving true (page w))
                    (inflight w ++ [PatchSave k draft]).
Proof.
  unfold save_clicked, saveService_begin.
  destruct (editing (page w)); eauto.
Qed.


Lemma flag_le b : (flag b <= 1)%nat.
Proof. destruct b; simpl; lia. Qed.

(** *** Loading and the list request *)

Lemma ui_step_gets w w' : ui_step w w' -> gets_inv w -> gets_inv w'.
Proof.
  unfold gets_inv. intros Hs H. destruct Hs; cbn [page inflight] in *.
  - rewrite token_effect_inflight, token_effect_page.
    destruct (decide _); [exact H|].
    rewrite count_app, count_unmount_live.
    destruct (authHeader_effect_frame
                (set_authHeader (Auth.deriveAuthHeader token) (page w)))
      as (_ & _ & _ & _ & _ & _ & _ & ->).
    destruct (snd _); reflexivity.
  - rewrite count_remove in H. destruct m; simpl in H.
    + destruct (fetch_settled_frame r st) as (_ & _ & _ & _ & _ & _ & ->).
      pose proof (flag_le (loading st)). simpl. lia.
    + exact H.
  - exact H.
  - exact H.
  - exact H.
  - destruct (toggle_clicked_cases k w) as [->|(c & st' & Hb & ->)];
      [exact H|]. cbn [page inflight].
    destruct (toggle_begin_frame _ _ _ _ Hb) as (_ & -> & _).
    rewrite count_app, H. unfold count. simpl. lia.
  - rewrite count_remove in H. simpl in H.
    destruct (toggle_settled_frame k current r st) as (_ & -> & _). exact H.
  - destruct (save_clicked_cases k w) as [[_ ->]|(d & _ & ->)]; [exact H|].
    cbn [page inflight]. rewrite count_app, H. unfold count. simpl. lia.
  - rewrite count_remove in H. simpl in H.
    destruct (save_settled_frame k draft r st) as (_ & -> & _). exact H.
Qed.

Lemma ui_reachable_gets w : ui_reachable w -> gets_inv w.
Proof.
  induction 1 as [|w w' _ IH Hs]; [reflexivity|].
  exact (ui_step_gets w w' Hs IH).
Qed.

(** *** Saving and the save request *)

Lemma ui_step_saves w w' : ui_step w w' -> saves_inv w -> saves_inv w'.
Proof.
  unfold saves_inv. intros Hs H. destruct Hs; cbn [page inflight] in *.
  - rewrite count_token by (try intros []; reflexivity).
    destruct (token_effect_frame token w) as (_ & _ & _ & -> & _). exact H.
  - rewrite count_remove in H. simpl in H.
    assert (E : saving (if m then fetch_settled r st else st) = saving st).
    { destruct m; [|reflexivity].
      destruct (fetch_settled_frame r st) as (_ & _ & _ & -> & _).
      reflexivity. }
    rewrite E. exact H.
  - exact H.
  - exact H.
  - exact H.
  - destruct (toggle_clicked_cases k w) as [->|(c & st' & Hb & ->)];
      [exact H|]. cbn [page inflight].
    destruct (toggle_begin_frame _ _ _ _ Hb) as (_ & _ & _ & _ & _ & -> & _).
    rewrite count_app, H. unfold count. simpl. lia.
  - rewrite count_remove in H. simpl in H.
    destruct (toggle_settled_frame k current r st)
      as (_ & _ & _ & _ & _ & -> & _). exact H.
  - destruct (save_clicked_cases k w) as [[_ ->]|(d & _ & ->)]; [exact H|].
    cbn [page inflight]. rewrite count_app, H.
    match goal with Hf : saving (page w) = false |- _ => rewrite Hf end.
    reflexivity.
  - rewrite count_remove in H. simpl in H.
    destruct (save_settled_frame k draft r st) as (_ & _ & _ & _ & ->).
    pose proof (flag_le (saving st)). simpl. lia.
Qed.

Lemma ui_reachable_saves w : ui_reachable w -> saves_inv w.
Proof.
  induction 1 as [|w w' _ IH Hs]; [reflexivity|].
  exact (ui_step_saves w w' Hs IH).
Qed.

(** *** Toggling and the toggle requests *)

Lemma is_toggling_insert k b k' st st' :
  toggling st' = <[k := b]> (toggling st) ->
  is_toggling k' st' = if decide (k = k') then b else is_toggling k' st.
Proof.
  intros E. unfold is_toggling, toggling_at. rewrite E, lookup_insert.
  destruct (decide (k = k')); reflexivity.
Qed.

Lemma toggle_flag_insert k b k' st st' :
  toggling st' = <[k := b]> (toggling st) ->
  toggle_flag k' st' = if decide (k = k') then b else toggle_flag k' st.
Proof.
  intros E. unfold toggle_flag. rewrite E, lookup_insert.
  destruct (decide (k = k')); reflexivity.
Qed.

(** A toggle that is enabled has no flag set; a flag that is set
    disables the toggle. *)
Lemma toggle_flag_disables k st :
  toggle_flag k st = true -> is_toggling k st = true.
Proof.
  unfold toggle_flag, is_toggling, toggling_at.
  destruct (toggling st !! k) as [b|]; simpl; [auto | discriminate].
Qed.

Lemma enabled_no_flag k st :
  is_toggling k st = false -> toggle_flag k st = false.
Proof.
  intros H. destruct (toggle_flag k st) eqn:E; [|reflexivity].
  rewrite (toggle_flag_disables _ _ E) in H. discriminate H.
Qed.

Lemma is_toggle_of_flag k k' c :
  flag (is_toggle_of k' (PatchToggle k c)) = if decide (k = k') then 1%nat else 0%nat.
Proof.
  simpl. destruct (decide (k = k')) as [E|E].
  - rewrite (bool_decide_eq_true_2 _ E). reflexivity.
  - rewrite (bool_decide_eq_false_2 _ E). reflexivity.
Qed.

Lemma ui_step_toggles w w' : ui_step w w' -> toggles_inv w -> toggles_inv w'.
Proof.
  unfold toggles_inv. intros Hs H k'. specialize (H k').
  destruct Hs; cbn [page inflight] in *.
  - rewrite count_token by (try intros []; reflexivity).
    unfold toggle_flag in *.
    destruct (token_effect_frame token w) as (_ & _ & _ & _ & -> & _).
    exact H.
  - rewrite count_remove in H. simpl in H.
    assert (E : toggling (if m then fetch_settled r st else st) = toggling st).
    { destruct m; [|reflexivity].
      destruct (fetch_settled_frame r st) as (_ & _ & _ & _ & -> & _).
      reflexivity. }
    unfold toggle_flag in *. rewrite E. exact H.
  - exact H.
  - exact H.
  - exact H.
  - destruct (toggle_clicked_cases k w) as [->|(c & st' & Hb & ->)];
      [exact H|]. cbn [page inflight].
    destruct (toggle_begin_frame _ _ _ _ Hb) as (_ & _ & _ & _ & _ & _ & _ & E).
    rewrite (toggle_flag_insert _ _ _ _ _ E), count_app, H.
    unfold count at 1. cbn [List.filter is_toggle_of].
    destruct (decide (k = k')) as [<-|Hne].
    + rewrite bool_decide_eq_true_2 by reflexivity.
      match goal with Hf : truthy (toggling_at k (page w)) = false |- _ =>
        rewrite (enabled_no_flag _ _ Hf) end.
      reflexivity.
    + rewrite bool_decide_eq_false_2 by exact Hne. simpl. lia.
  - rewrite count_remove, is_toggle_of_flag in H.
    destruct (toggle_settled_frame k current r st)
      as (_ & _ & _ & _ & _ & _ & E).
    rewrite (toggle_flag_insert _ _ _ _ _ E).
    destruct (decide (k = k')); simpl in H.
    + pose proof (flag_le (toggle_flag k' st)). simpl. lia.
    + exact H.
  - destruct (save_clicked_cases k w) as [[_ ->]|(d & _ & ->)]; [exact H|].
    cbn [page inflight]. rewrite count_app, H. unfold count, toggle_flag.
    simpl. lia.
  - rewrite count_remove in H. simpl in H. unfold toggle_flag in *.
    destruct (save_settled_frame k draft r st) as (_ & _ & _ & -> & _).
    exact H.
Qed.

Lemma ui_reachable_toggles w : ui_reachable w -> toggles_inv w.
Proof.
  induction 1 as [|w w' _ IH Hs]; [intros k; reflexivity|].
  exact (ui_step_toggles w w' Hs IH).
Qed.


(** *** The panel and its draft *)

Lemma ui_step_panel w w' :
  ui_step w w' -> panel_inv (page w) -> panel_inv (page w').
Proof.
  unfold panel_inv. intros Hs H. destruct Hs; cbn [page] in *.
  - destruct (token_effect_frame token w) as (_ & -> & -> & _). exact H.
  - destruct m; [|exact H].
    destruct (fetch_settled_frame r st) as (_ & -> & -> & _). exact H.
  - intros _. discriminate.
  - intros E. contradiction.
  - intros _. discriminate.
  - destruct (toggle_clicked_cases k w) as [->|(c & st' & Hb & ->)];
      [exact H|]. cbn [page].
    destruct (toggle_begin_frame _ _ _ _ Hb) as (_ & _ & _ & -> & -> & _).
    exact H.
  - destruct (toggle_settled_frame k current r st)
      as (_ & _ & _ & -> & -> & _). exact H.
  - destruct (save_clicked_cases k w) as [[_ ->]|(d & _ & ->)]; exact H.
  - unfold saveService_settled. destruct (checked r); simpl;
      [intros E; contradiction | exact H].
Qed.

Lemma ui_reachable_panel w : ui_reachable w -> panel_inv (page w).
Proof.
  induction 1 as [|w w' _ IH Hs]; [intros E; contradiction|].
  exact (ui_step_panel w w' Hs IH).
Qed.

(** *** The header *)

Lemma ui_step_header w w' :
  ui_step w w' -> header_inv (page w) -> header_inv (page w').
Proof.
  unfold header_inv. intros Hs H. destruct Hs; cbn [page] in *.
  - rewrite token_effect_page. destruct (decide _); [exact H|].
    destruct (authHeader_effect_frame
                (set_authHeader (Auth.deriveAuthHeader token) (page w)))
      as (-> & _). exists token. reflexivity.
  - destruct m; [|exact H].
    destruct (fetch_settled_frame r st) as (-> & _). exact H.
  - exact H.
  - exact H.
  - exact H.
  - destruct (toggle_clicked_cases k w) as [->|(c & st' & Hb & ->)];
      [exact H|]. cbn [page].
    destruct (toggle_begin_frame _ _ _ _ Hb) as (-> & _). exact H.
  - destruct (toggle_settled_frame k current r st) as (-> & _). exact H.
  - destruct (save_clicked_cases k w) as [[_ ->]|(d & _ & ->)]; exact H.
  - destruct (save_settled_frame k draft r st) as (-> & _). exact H.
Qed.

Lemma ui_reachable_header w : ui_reachable w -> header_inv (page w).
Proof.
  induction 1 as [|w w' _ IH Hs]; [exists None; reflexivity|].
  exact (ui_step_header w w' Hs IH).
Qed.

(** *** Keys, data and drafts, for the steps of the screen *)

Lemma ui_step_distinct_keys w w' :
  ui_step w w' ->
  NoDup (map key (services (page w))) ->
  NoDup (map key (services (page w'))).
Proof.
  intros Hstep Hnd. destruct Hstep; cbn [page] in *.
  - rewrite token_effect_rows. exact Hnd.
  - destruct m; [apply fetch_settled_rows; assumption | exact Hnd].
  - exact Hnd.
  - exact Hnd.
  - exact Hnd.
  - rewrite (rows_same_keys k _ _ (toggle_clicked_rows k w)). exact Hnd.
  - rewrite (rows_same_keys k _ _ (toggle_settled_rows k current r st)).
    exact Hnd.
  - rewrite save_clicked_rows. exact Hnd.
  - rewrite (rows_same_keys k _ _ (save_settled_rows k draft r st)).
    exact Hnd.
Qed.

Lemma ui_reachable_distinct_keys w :
  ui_reachable w -> NoDup (map key (services (page w))).
Proof.
  induction 1 as [|w w' _ IH Hstep]; [apply NoDup_nil_2|].
  exact (ui_step_distinct_keys w w' Hstep IH).
Qed.

Lemma ui_reachable_rows_truthy w : ui_reachable w -> rows_truthy (page w).
Proof.
  induction 1 as [|w w' _ IH Hstep]; [apply Forall_nil_2|].
  destruct Hstep; cbn [page] in *.
  - unfold rows_truthy. rewrite token_effect_rows. exact IH.
  - destruct m; [apply fetch_settled_truthy, IH | exact IH].
  - exact IH.
  - exact IH.
  - exact IH.
  - apply toggle_clicked_truthy, IH.
  - apply toggle_settled_truthy, IH.
  - unfold rows_truthy. rewrite save_clicked_rows. exact IH.
  - apply save_settled_truthy, IH.
Qed.

Lemma ui_reachable_editing_distinct w d :
  ui_reachable w -> editing (page w) = Some d -> distinct_fields d.
Proof.
  intros Hr. revert d. induction Hr as [|w w' _ IH Hstep]; [discriminate|].
  unfold distinct_fields in *. destruct Hstep; cbn [page] in *.
  - destruct (token_effect_frame token w) as (_ & _ & -> & _). exact IH.
  - destruct m; [|exact IH].
    destruct (fetch_settled_frame r st) as (_ & _ & -> & _). exact IH.
  - unfold openManage. simpl. intros d [= <-].
    destruct (find_row k (services (page w)));
      [apply spread_distinct|]; apply NoDup_nil_2.
  - discriminate.
  - unfold editField. simpl. intros d [= <-].
    apply set_prop_distinct, spread_distinct, NoDup_nil_2.
  - destruct (toggle_clicked_cases k w) as [->|(c & st' & Hb & ->)];
      [exact IH|]. cbn [page].
    destruct (toggle_begin_frame _ _ _ _ Hb) as (_ & _ & _ & _ & -> & _).
    exact IH.
  - destruct (toggle_settled_frame k current r st)
      as (_ & _ & _ & _ & -> & _). exact IH.
  - destruct (save_clicked_cases k w) as [[_ ->]|(d' & _ & ->)]; exact IH.
  - unfold saveService_settled. destruct (checked r); simpl;
      [discriminate | exact IH].
Qed.


(** *** No header, no list *)

Lemma ui_step_no_header w w' :
  ui_step w w' -> no_header_inv w -> no_header_inv w'.
Proof.
  unfold no_header_inv. intros Hs H. destruct Hs; cbn [page inflight] in *.
  - rewrite token_effect_inflight, token_effect_page.
    destruct (decide _) as [E|E]; [exact H|].
    unfold authHeader_effect. simpl authHeader.
    destruct (Auth.deriveAuthHeader token) as [[|c h]|]; simpl;
      try discriminate; intros _; (split; [reflexivity|]);
      rewrite count_app, count_unmount_live; reflexivity.
  - rewrite count_remove in H. destruct m.
    + destruct (fetch_settled_frame r st) as (-> & _).
      intros E. destruct (H E) as [_ H']. simpl in H'. discriminate H'.
    + exact H.
  - exact H.
  - exact H.
  - exact H.
  - destruct (toggle_clicked_cases k w) as [->|(c & st' & Hb & ->)];
      [exact H|]. cbn [page inflight].
    destruct (toggle_begin_frame _ _ _ _ Hb) as (-> & _ & -> & _).
    rewrite count_app. intros E. destruct (H E) as [He ->].
    split; [exact He | reflexivity].
  - rewrite count_remove in H.
    destruct (toggle_settled_frame k current r st) as (-> & _ & -> & _).
    exact H.
  - destruct (save_clicked_cases k w) as [[_ ->]|(d & _ & ->)]; [exact H|].
    cbn [page inflight]. rewrite count_app. intros E.
    destruct (H E) as [He ->]. split; [exact He | reflexivity].
  - rewrite count_remove in H.
    destruct (save_settled_frame k draft r st) as (-> & _ & -> & _).
    exact H.
Qed.

Lemma ui_reachable_no_header w : ui_reachable w -> no_header_inv w.
Proof.
  induction 1 as [|w w' _ IH Hs]; [intros _; split; reflexivity|].
  exact (ui_step_no_header w w' Hs IH).
Qed.

(** *** Sample runs *)

End WithPrototypes.

(** *** Sample runs, with the standard prototypes *)

#[local] Existing Instance standard_prototypes.

Lemma ui_listed : ui_reachable Samples.w_listed.
Proof.
  apply (ui_next Samples.w_loading).
  - apply (ui_next after_mount); [apply ui_mount | apply ui_token].
  - change Samples.w_loading
      with (mkWorld (page Samples.w_loading) ([] ++ GetList true :: [])).
    apply (ui_get_settled true Samples.list_response).
    intros res body [= <-] [= <-]. unfold well_formed. vm_compute.
    apply NoDup_cons. split.
    + intros H. apply list_elem_of_singleton in H. discriminate H.
    + apply NoDup_singleton.
Qed.

Lemma ui_loading : ui_reachable Samples.w_loading.
Proof. apply (ui_next after_mount); [apply ui_mount | apply ui_token]. Qed.

Lemma ui_managing : ui_reachable Samples.w_managing.
Proof. apply reachable_ui, sample_reachable. Qed.

Lemma ui_toggling : ui_reachable Scenarios.w_toggling.
Proof.
  apply (ui_next Samples.w_listed); [apply ui_listed|].
  apply ui_toggle; [|reflexivity].
  split; [reflexivity|]. split; [reflexivity|].
  apply list_elem_of_further, list_elem_of_here.
Qed.

Lemma ui_saving : ui_reachable Scenarios.w_saving.
Proof.
  apply (ui_next Samples.w_managing); [apply ui_managing|].
  apply ui_save; try reflexivity.
  split; [reflexivity|]. split; [reflexivity|]. apply list_elem_of_here.
Qed.

End TraceFacts.

Module PageMore.
Import JsString Js Page Screen JsFacts PageFacts TraceFacts.

Section WithPrototypes.
Context {P : Prototypes}.

(** *** The fields of a toggled row *)

Lemma spread_copy_assoc d f :
  well_formed d -> assoc f (spread [] d) = assoc f (own_entries d).
Proof.
  intros H. rewrite (assoc_spread _ _ _ H).
  destruct (assoc f (own_entries d)); reflexivity.
Qed.

Lemma with_is_active_fields b s f :
  well_formed (data s) ->
  assoc f (own_entries (data (with_is_active b s)))
  = if decide (js "is_active" = f) then Some (VBool b)
    else assoc f (own_entries (data s)).
Proof.
  intros H. unfold with_is_active. simpl data. simpl own_entries.
  rewrite assoc_set_prop. destruct (decide _); [reflexivity|].
  apply spread_copy_assoc, H.
Qed.

Lemma with_is_active_well_formed b s : well_formed (data (with_is_active b s)).
Proof.
  unfold with_is_active, well_formed. simpl.
  apply set_prop_distinct, spread_distinct, NoDup_nil_2.
Qed.

Lemma get_VBool_assoc d k b :
  k ∈ api_fields ->
  get d k = VBool b -> assoc k (own_entries d) = Some (VBool b).
Proof.
  intros Hk H. destruct (assoc k (own_entries d)) as [x|] eqn:E.
  - rewrite (get_own _ _ _ E) in H. congruence.
  - rewrite (get_api_field_absent _ _ Hk E) in H. discriminate H.
Qed.

(** X7.  A toggle changes no field of the row but [is_active]: neither
    the optimistic update nor the rollback after a failed PATCH; and when
    [is_active] was a boolean, the rollback gives every field of the row
    the value it had. *)
Theorem X7_toggle_touches_only_is_active
    (k : jsstring) (st : state) (s : ServiceRow) :
  find_row k (services st) = Some s ->
  nullish (data s) = false ->
  well_formed (data s) ->
  exists current st1,
    toggleService_begin k st = ToggleSent current st1
    /\ (exists s1,
          find_row k (services st1) = Some s1
          /\ forall f, f <> js "is_active" ->
               assoc f (own_entries (data s1)) = assoc f (own_entries (data s)))
    /\ (forall r e,
          checked r = RejectedWith e ->
          exists s3,
            find_row k (services (toggleService_settled k current r st1))
            = Some s3
            /\ (forall f, f <> js "is_active" ->
                  assoc f (own_entries (data s3))
                  = assoc f (own_entries (data s)))
            /\ (forall b, get (data s) (js "is_active") = VBool b ->
                forall f, assoc f (own_entries (data s3))
                          = assoc f (own_entries (data s)))).
Proof.
  intros Hs Hd Hw. unfold toggleService_begin, is_active_of. rewrite Hs, Hd.
  eexists _, _. split; [reflexivity|].
  set (current := truthy (get (data s) (js "is_active"))).
  assert (Hkey : forall b s', key s' = k -> key (with_is_active b s') = k)
    by (intros; assumption).
  split.
  - exists (with_is_active (negb current) s). split.
    + simpl. rewrite (find_row_map_key _ _ _ (Hkey _)), Hs. reflexivity.
    + intros f Hf. rewrite (with_is_active_fields _ _ _ Hw).
      destruct (decide _); [congruence | reflexivity].
  - intros r e Hr. unfold toggleService_settled. rewrite Hr. simpl.
    exists (with_is_active current (with_is_active (negb current) s)).
    rewrite !(find_row_map_key _ _ _ (Hkey _)), Hs. split; [reflexivity|].
    assert (Hf : forall f,
               assoc f (own_entries
                          (data (with_is_active current
                                   (with_is_active (negb current) s))))
               = if decide (js "is_active" = f) then Some (VBool current)
                 else assoc f (own_entries (data s))).
    { intros f.
      rewrite (with_is_active_fields _ _ _ (with_is_active_well_formed _ _)).
      destruct (decide _); [reflexivity|].
      rewrite (with_is_active_fields _ _ _ Hw).
      destruct (decide _); [contradiction | reflexivity]. }
    split.
    + intros f Hne. rewrite Hf. destruct (decide _); [congruence|reflexivity].
    + intros b Hb f. rewrite Hf. destruct (decide _) as [<-|]; [|reflexivity].
      rewrite (get_VBool_assoc _ _ _
                 (list_elem_of_further _ _ _ (list_elem_of_here _ _)) Hb).
      subst current. rewrite Hb.
      reflexivity.
Qed.



(** X9.  A success whose body is not JSON is taken as a success without
    a record: the toggle keeps its optimistic rows and shows no alert,
    the save merges the draft and closes the panel. *)
Theorem X9_malformed_body_tolerated
    (k : jsstring) (r : settled response) (res : response) (e : thrown) :
  checked r = Fulfilled res ->
  json res = RejectedWith e ->
  (forall current st,
     services (toggleService_settled k current r st) = services st
     /\ alerts (toggleService_settled k current r st) = alerts st
     /\ is_toggling k (toggleService_settled k current r st) = false)
  /\ (forall draft st,
        services (saveService_settled k draft r st)
        = map_key k (merged_with draft) (services st)
        /\ alerts (saveService_settled k draft r st) = alerts st
        /\ expandedKey (saveService_settled k draft r st) = None
        /\ editing (saveService_settled k draft r st) = None).
Proof.
  intros Hr Hj.
  assert (Hu : updated_record (json_or_null res) k = None).
  { unfold json_or_null. rewrite Hj. reflexivity. }
  split.
  - intros current st. unfold toggleService_settled, is_toggling, toggling_at.
    rewrite Hr, Hu. simpl. rewrite lookup_insert_eq. repeat split.
  - intros draft st. unfold saveService_settled. rewrite Hr, Hu.
    repeat split.
Qed.

Lemma entry_truthy v k x : assoc k (own_entries v) = Some x -> truthy v = true.
Proof.
  destruct v as [| | | |s| | |]; simpl; try discriminate; try reflexivity.
  destruct s; [discriminate | reflexivity].
Qed.

Lemma updated_record_entry body ps k d :
  assoc (js "payment_services") (own_entries body) = Some ps ->
  assoc k (own_entries ps) = Some d ->
  updated_record body k = if truthy d then Some d else None.
Proof.
  intros Hp Hk. unfold updated_record, get. rewrite Hp, Hk.
  rewrite (entry_truthy _ _ _ Hp), (entry_truthy _ _ _ Hk). reflexivity.
Qed.

(** X10.  When the body of a success has an entry for [k] under
    [payment_services], toggle and save both give every row of key [k]
    exactly that entry as data, whatever the optimistic value or the
    draft was, unless the entry is falsy ([null], say): then the toggle
    keeps its optimistic rows and the save merges the draft. *)
Theorem X10_server_record_wins
    (k : jsstring) (r : settled response) (res : response)
    (body ps d : value) :
  checked r = Fulfilled res ->
  json res = Fulfilled body ->
  assoc (js "payment_services") (own_entries body) = Some ps ->
  assoc k (own_entries ps) = Some d ->
  forall st,
    (forall current,
       services (toggleService_settled k current r st)
       = if truthy d then map_key k (fun _ => mkRow k d) (services st)
         else services st)
    /\ (forall draft,
          services (saveService_settled k draft r st)
          = if truthy d then map_key k (fun _ => mkRow k d) (services st)
            else map_key k (merged_with draft) (services st))
    /\ (forall s, find_row k (services st) = Some s ->
         find_row k (map_key k (fun _ => mkRow k d) (services st))
         = Some (mkRow k d)).
Proof.
  intros Hr Hj Hp Hk st.
  assert (Hu : updated_record (json_or_null res) k
               = if truthy d then Some d else None).
  { unfold json_or_null. rewrite Hj. exact (updated_record_entry _ _ _ _ Hp Hk). }
  split; [|split].
  - intros current. unfold toggleService_settled. rewrite Hr, Hu.
    destruct (truthy d); reflexivity.
  - intros draft. unfold saveService_settled. rewrite Hr, Hu.
    destruct (truthy d); reflexivity.
  - intros s Hs. rewrite find_row_map_key by reflexivity. rewrite Hs.
    reflexivity.
Qed.

(** X11.  Manage followed by Save without any edit, answered by a success
    without a record, leaves every field of the row as it was. *)
Theorem X11_unedited_save_keeps_row
    (k : jsstring) (st : state) (s : ServiceRow) :
  find_row k (services st) = Some s ->
  well_formed (data s) ->
  exists draft st2,
    saveService_begin (openManage k st) = SaveSent draft st2
    /\ forall r res,
         checked r = Fulfilled res ->
         updated_record (json_or_null res) k = None ->
         exists s',
           find_row k (services (saveService_settled k draft r st2)) = Some s'
           /\ forall f, assoc f (own_entries (data s'))
                        = assoc f (own_entries (data s)).
Proof.
  intros Hs Hw. unfold saveService_begin, openManage. simpl editing.
  rewrite Hs. eexists _, _. split; [reflexivity|].
  intros r res Hr Hu. unfold saveService_settled. rewrite Hr, Hu.
  simpl services.
  exists (merged_with (spread [] (data s)) s).
  rewrite find_row_map_key by (intros ? ?; assumption). rewrite Hs.
  split; [reflexivity|]. intros f.
  rewrite merged_with_assoc;
    [| apply spread_distinct, NoDup_nil_2 | exact Hw].
  rewrite (spread_copy_assoc _ _ Hw).
  destruct (assoc f (own_entries (data s))); reflexivity.
Qed.


(** *** The inputs of the panel *)

(** X12.  Typing into an input of the panel stores the text under the
    name of that field in the draft (for a date that is cleared, [null]),
    leaves every other field of the draft as it is, and touches neither
    the rows nor the expanded key. *)
Theorem X12_onChange_sets_one_field
    (f : field) (typed : jsstring) (st : state) :
  NoDup (map fst (default [] (editing st))) ->
  exists d,
    editing (onChange f typed st) = Some d
    /\ assoc (field_name f) d = Some (field_value f typed)
    /\ (forall g, g <> field_name f ->
                  assoc g d = assoc g (default [] (editing st)))
    /\ NoDup (map fst d)
    /\ services (onChange f typed st) = services st
    /\ expandedKey (onChange f typed st) = expandedKey st
    /\ (typed = [] -> f = f_start_date \/ f = f_end_date ->
        assoc (field_name f) d = Some VNull).
Proof.
  intros Hd. unfold onChange, editField. simpl.
  set (old := match editing st with Some ps => ps | None => [] end).
  assert (Ho : old = default [] (editing st))
    by (unfold old; destruct (editing st); reflexivity).
  eexists. split; [reflexivity|].
  assert (Hn : assoc (field_name f)
                 (set_prop (spread [] (VObj old)) (field_name f)
                           (field_value f typed))
               = Some (field_value f typed)).
  { rewrite assoc_set_prop. destruct (decide _); [reflexivity|contradiction]. }
  split; [exact Hn|]. split; [|split; [|split; [|split]]].
  - intros g Hg. rewrite assoc_set_prop.
    destruct (decide _); [congruence|].
    rewrite <- Ho. apply (spread_copy_assoc (VObj old)).
    unfold well_formed. simpl. rewrite Ho. exact Hd.
  - apply set_prop_distinct, spread_distinct, NoDup_nil_2.
  - reflexivity.
  - reflexivity.
  - intros -> Hf. rewrite Hn. destruct Hf as [-> | ->]; reflexivity.
Qed.

(** *** The list request that fails *)

(** X13.  When the GET fails (the request is rejected, the status is not
    2xx, or the body is not JSON) the rows stay as they were, the
    message of the error becomes the error of the page, and the page
    stops loading; for a status that is not 2xx the message is the
    status, the status text and the body. *)
Theorem X13_failed_fetch_keeps_rows (r : settled response) (st : state) :
  (forall e,
     checked r = RejectedWith e
     \/ (exists res, checked r = Fulfilled res /\ json res = RejectedWith e) ->
     services (fetch_settled r st) = services st
     /\ error (fetch_settled r st)
        = Some (message_of e (js "Error fetching payment services"))
     /\ loading (fetch_settled r st) = false)
  /\ (forall res txt,
        r = Fulfilled res -> ok res = false -> text res = Fulfilled txt ->
        error (fetch_settled r st)
        = Some (number_text (status res) ++ js " " ++ statusText res
                ++ js " - " ++ txt)).
Proof.
  split.
  - intros e [Hr | (res & Hr & Hj)]; unfold fetch_settled; rewrite Hr;
      [|rewrite Hj]; repeat split.
  - intros res txt -> Hok Ht. unfold fetch_settled, checked.
    rewrite Hok, Ht. reflexivity.
Qed.

(** *** The token *)

Lemma token_effect_header token w :
  authHeader (page (token_effect token w)) = Auth.deriveAuthHeader token.
Proof.
  rewrite token_effect_page. destruct (decide _) as [E|E]; [congruence|].
  destruct (authHeader_effect_frame
              (set_authHeader (Auth.deriveAuthHeader token) (page w)))
    as (-> & _). reflexivity.
Qed.

(** X14.  The same token delivered again changes nothing: no second GET
    is sent and the GET in flight stays mounted. *)
Theorem X14_same_token_no_refetch (token : option jsstring) (w : world) :
  token_effect token (token_effect token w) = token_effect token w.
Proof.
  unfold token_effect at 1. rewrite token_effect_header.
  destruct (decide _); [reflexivity | contradiction].
Qed.

(** X15.  A token that changes the header unmounts every GET in flight
    and a token without header sends none: after the change at most the
    GET just sent is mounted. *)
Theorem X15_token_change_unmounts (token : option jsstring) (w : world) :
  Auth.deriveAuthHeader token <> authHeader (page w) ->
  count is_live_get (inflight (token_effect token w))
  = flag (bool_decide (Auth.deriveAuthHeader token <> None))
  /\ length (inflight (token_effect token w))
     = (length (inflight w)
        + flag (bool_decide (Auth.deriveAuthHeader token <> None)))%nat.
Proof.
  intros Hne. rewrite token_effect_inflight.
  destruct (decide _); [contradiction|].
  rewrite count_app, count_unmount_live, length_app, length_map.
  unfold authHeader_effect. simpl authHeader.
  pose proof (AuthMore.derived_header_shape token) as Hh.
  destruct (Auth.deriveAuthHeader token) as [[|c h]|]; simpl.
  - destruct (Hh [] eq_refl) as [Hn _]. contradiction.
  - split; reflexivity.
  - split; reflexivity.
Qed.


(** *** Toggle and save keep out of each other's state *)

(** X16.  A toggle, at the click and when its response arrives, leaves
    the expanded key, the draft and the saving flag alone, and the
    toggling flag of every other key; a save leaves every toggling flag
    alone; neither touches the header, the loading flag or the error of
    the page. *)
Theorem X16_toggle_and_save_frames (k : jsstring) (w : world) :
  (expandedKey (page (toggle_clicked k w)) = expandedKey (page w)
   /\ editing (page (toggle_clicked k w)) = editing (page w)
   /\ saving (page (toggle_clicked k w)) = saving (page w)
   /\ authHeader (page (toggle_clicked k w)) = authHeader (page w)
   /\ loading (page (toggle_clicked k w)) = loading (page w)
   /\ error (page (toggle_clicked k w)) = error (page w)
   /\ forall k', k' <> k ->
        is_toggling k' (page (toggle_clicked k w)) = is_toggling k' (page w))
  /\ (forall current r,
        expandedKey (toggleService_settled k current r (page w))
        = expandedKey (page w)
        /\ editing (toggleService_settled k current r (page w))
           = editing (page w)
        /\ saving (toggleService_settled k current r (page w))
           = saving (page w)
        /\ authHeader (toggleService_settled k current r (page w))
           = authHeader (page w)
        /\ loading (toggleService_settled k current r (page w))
           = loading (page w)
        /\ error (toggleService_settled k current r (page w))
           = error (page w)
        /\ forall k', k' <> k ->
             is_toggling k' (toggleService_settled k current r (page w))
             = is_toggling k' (page w))
  /\ (toggling (page (save_clicked k w)) = toggling (page w)
      /\ authHeader (page (save_clicked k w)) = authHeader (page w)
      /\ loading (page (save_clicked k w)) = loading (page w)
      /\ error (page (save_clicked k w)) = error (page w))
  /\ (forall draft r,
        toggling (saveService_settled k draft r (page w)) = toggling (page w)
        /\ authHeader (saveService_settled k draft r (page w))
           = authHeader (page w)
        /\ loading (saveService_settled k draft r (page w))
           = loading (page w)
        /\ error (saveService_settled k draft r (page w)) = error (page w)).
Proof.
  split; [|split; [|split]].
  - destruct (toggle_clicked_cases k w) as [->|(c & st' & Hb & ->)];
      [repeat split|]. cbn [page].
    destruct (toggle_begin_frame _ _ _ _ Hb)
      as (H1 & H2 & H3 & H4 & H5 & H6 & _ & H7).
    repeat split; try assumption.
    intros k' Hk. rewrite (is_toggling_insert _ _ _ _ _ H7).
    destruct (decide _); [congruence | reflexivity].
  - intros current r.
    destruct (toggle_settled_frame k current r (page w))
      as (H1 & H2 & H3 & H4 & H5 & H6 & H7).
    repeat split; try assumption.
    intros k' Hk. rewrite (is_toggling_insert _ _ _ _ _ H7).
    destruct (decide _); [congruence | reflexivity].
  - destruct (save_clicked_cases k w) as [[_ ->]|(d & _ & ->)];
      repeat split.
  - intros draft r.
    destruct (save_settled_frame k draft r (page w)) as (H1 & H2 & H3 & H4 & _).
    repeat split; assumption.
Qed.

(** *** What holds of every page the screen can reach *)

(** X17.  The page is loading exactly while one GET whose effect is
    still mounted is in flight; there are never two of them. *)
Theorem X17_loading_tracks_fetch (w : world) :
  ui_reachable w ->
  count is_live_get (inflight w) = flag (loading (page w))
  /\ (count is_live_get (inflight w) <= 1)%nat.
Proof.
  intros Hr. pose proof (ui_reachable_gets w Hr) as H. unfold gets_inv in H.
  split; [exact H|]. rewrite H. apply flag_le.
Qed.

(** X18.  The saving flag is set exactly while one save is in flight;
    there are never two saves in flight. *)
Theorem X18_saving_tracks_save (w : world) :
  ui_reachable w ->
  count is_save (inflight w) = flag (saving (page w))
  /\ (count is_save (inflight w) <= 1)%nat.
Proof.
  intros Hr. pose proof (ui_reachable_saves w Hr) as H. unfold saves_inv in H.
  split; [exact H|]. rewrite H. apply flag_le.
Qed.

(** X19.  The flag of a key in [toggling] is set exactly while one
    toggle of that key is in flight, and while it is set the toggle of
    the row is disabled: no key ever has two toggles in flight.  For a
    key that names nothing a plain object inherits, the toggle is
    disabled exactly while its toggle is in flight. *)
Theorem X19_toggling_tracks_toggles (w : world) (k : jsstring) :
  ui_reachable w ->
  count (is_toggle_of k) (inflight w) = flag (toggle_flag k (page w))
  /\ (count (is_toggle_of k) (inflight w) <= 1)%nat
  /\ (count (is_toggle_of k) (inflight w) = 1%nat ->
      is_toggling k (page w) = true)
  /\ (truthy (object_member k) = false ->
      count (is_toggle_of k) (inflight w) = flag (is_toggling k (page w))).
Proof.
  intros Hr. pose proof (ui_reachable_toggles w Hr k) as H.
  split; [exact H|]. split; [rewrite H; apply flag_le|]. split.
  - rewrite H. intros Hf. apply toggle_flag_disables.
    destruct (toggle_flag k (page w)); [reflexivity | discriminate Hf].
  - intros Hk. rewrite H. unfold is_toggling, toggle_flag, toggling_at.
    destruct (toggling (page w) !! k) as [b|]; simpl; [reflexivity|].
    rewrite Hk. reflexivity.
Qed.

(** X20.  An expanded row always has a draft, with no field named twice,
    so Save in an open panel never returns early: it sets the saving
    flag and sends the PATCH with that draft. *)
Theorem X20_open_panel_has_draft (w : world) (k : jsstring) :
  ui_reachable w ->
  expandedKey (page w) = Some k ->
  exists draft,
    editing (page w) = Some draft
    /\ distinct_fields draft
    /\ save_clicked k w
       = mkWorld (set_saving true (page w))
                 (inflight w ++ [PatchSave k draft]).
Proof.
  intros Hr He. pose proof (ui_reachable_panel w Hr) as Hp.
  unfold panel_inv in Hp. rewrite He in Hp.
  destruct (editing (page w)) as [d|] eqn:Hd;
    [|exfalso; apply Hp; [discriminate | reflexivity]].
  exists d. split; [reflexivity|].
  split; [exact (ui_reachable_editing_distinct w d Hr Hd)|].
  unfold save_clicked, saveService_begin. rewrite Hd. reflexivity.
Qed.

(** X21.  While the buttons of a row are on screen the page holds a
    header, and it carries a scheme: toggle and save never send a PATCH
    without an Authorization value. *)
Theorem X21_buttons_need_header (w : world) (k : jsstring) :
  ui_reachable w ->
  on_screen k (page w) ->
  exists h,
    authHeader (page w) = Some h
    /\ h <> []
    /\ Auth.hasScheme h = true.
Proof.
  intros Hr (Hl & He & _).
  destruct (authHeader (page w)) as [h|] eqn:Hh.
  - destruct (ui_reachable_header w Hr) as [token Ht]. rewrite Hh in Ht.
    symmetry in Ht.
    destruct (AuthMore.derived_header_shape token h Ht) as (H1 & H2 & _).
    exists h. auto.
  - destruct (ui_reachable_no_header w Hr Hh) as [Herr _].
    unfold error_shown in He. rewrite Herr in He. discriminate He.
Qed.

(** X22.  On a page the screen can reach, the data of a row is never
    [null] or [undefined]: the toggle of a row that exists reads
    [is_active] without throwing and sends its PATCH. *)
Theorem X22_toggle_never_throws (w : world) (k : jsstring) (s : ServiceRow) :
  ui_reachable w ->
  find_row k (services (page w)) = Some s ->
  truthy (data s) = true
  /\ exists st',
       toggleService_begin k (page w)
       = ToggleSent (truthy (get (data s) (js "is_active"))) st'.
Proof.
  intros Hr Hs. pose proof (ui_reachable_rows_truthy w Hr) as Ht.
  assert (Hd : truthy (data s) = true).
  { unfold find_row in Hs. apply find_some in Hs as [Hin _].
    unfold rows_truthy in Ht. rewrite Forall_forall in Ht.
    apply list_elem_of_In in Hin. exact (Ht s Hin). }
  split; [exact Hd|].
  unfold toggleService_begin, is_active_of. rewrite Hs.
  destruct (data s); try discriminate Hd; eauto.
Qed.

(** X23.  On a page the screen can reach, with the error tested as the
    JSX tests it, the keys of the rows are pairwise different and at most
    one panel is rendered. *)
Theorem X23_screen_one_panel (w : world) :
  ui_reachable w ->
  NoDup (map key (services (page w)))
  /\ (length (open_panels (page w)) <= 1)%nat.
Proof.
  intros Hr. pose proof (ui_reachable_distinct_keys w Hr) as H.
  split; [exact H | apply panels_at_most_one, H].
Qed.

End WithPrototypes.

(** *** Sample runs, with the standard prototypes *)

#[local] Existing Instance standard_prototypes.

(** Distinct names of a concrete object. *)
Ltac distinct_names :=
  unfold well_formed, distinct_fields; simpl;
  repeat (apply NoDup_cons; split;
          [ rewrite ?elem_of_cons, ?elem_of_nil; intuition discriminate |]);
  apply NoDup_nil_2.

Lemma cod_well_formed : well_formed Samples.cod_data.
Proof. distinct_names. Qed.

Lemma razorpay_well_formed : well_formed Samples.razorpay_data.
Proof. distinct_names. Qed.

Lemma X7_witness :
  find_row Samples.cod (services Samples.listed_page) = Some Samples.row_cod
  /\ nullish (data Samples.row_cod) = false
  /\ well_formed (data Samples.row_cod)
  /\ exists current st1,
       toggleService_begin Samples.cod Samples.listed_page
       = ToggleSent current st1.
Proof.
  split; [reflexivity|]. split; [reflexivity|].
  split; [exact cod_well_formed|].
  destruct (X7_toggle_touches_only_is_active Samples.cod Samples.listed_page
              Samples.row_cod eq_refl eq_refl cod_well_formed)
    as (current & st1 & Hb & _).
  exists current, st1. exact Hb.
Defined.


Lemma X9_witness :
  checked (Fulfilled Scenarios.no_content) = Fulfilled Scenarios.no_content
  /\ services (toggleService_settled Samples.cod true
                 (Fulfilled Scenarios.no_content) Samples.listed_page)
     = services Samples.listed_page.
Proof.
  split; [reflexivity|].
  apply (X9_malformed_body_tolerated Samples.cod
           (Fulfilled Scenarios.no_content) Scenarios.no_content
           (ErrorObject (js "Unexpected end of JSON input"))
           eq_refl eq_refl).
Defined.

Lemma X10_witness :
  checked Scenarios.ok_with_cod = Scenarios.ok_with_cod
  /\ find_row Samples.cod
       (services (toggleService_settled Samples.cod true
                    Scenarios.ok_with_cod Samples.listed_page))
     = Some (mkRow Samples.cod Scenarios.cod_updated).
Proof.
  split; [reflexivity|].
  destruct (X10_server_record_wins Samples.cod Scenarios.ok_with_cod
              (mkResponse 200 (js "OK") (Fulfilled [])
                 (Fulfilled
                    (VObj [(js "payment_services",
                            VObj [(Samples.cod, Scenarios.cod_updated)])])))
              (VObj [(js "payment_services",
                      VObj [(Samples.cod, Scenarios.cod_updated)])])
              (VObj [(Samples.cod, Scenarios.cod_updated)])
              Scenarios.cod_updated eq_refl eq_refl eq_refl eq_refl
              Samples.listed_page)
    as (H1 & _ & H3).
  rewrite H1. exact (H3 Samples.row_cod eq_refl).
Defined.

Lemma X11_witness :
  find_row Samples.cod (services Samples.listed_page) = Some Samples.row_cod
  /\ well_formed (data Samples.row_cod)
  /\ exists draft st2,
       saveService_begin (openManage Samples.cod Samples.listed_page)
       = SaveSent draft st2.
Proof.
  split; [reflexivity|]. split; [exact cod_well_formed|].
  destruct (X11_unedited_save_keeps_row Samples.cod Samples.listed_page
              Samples.row_cod eq_refl cod_well_formed)
    as (draft & st2 & Hb & _).
  exists draft, st2. exact Hb.
Defined.

Lemma X12_witness :
  NoDup (map fst (default [] (editing Samples.editing_page)))
  /\ exists d,
       editing (onChange f_start_date [] Samples.editing_page) = Some d
       /\ assoc (js "start_date") d = Some VNull
       /\ assoc (js "url") d = Some (VStr (js "https://x")).
Proof.
  assert (Hd : NoDup (map fst (default [] (editing Samples.editing_page)))).
  { apply NoDup_singleton. }
  split; [exact Hd|].
  destruct (X12_onChange_sets_one_field f_start_date [] Samples.editing_page
              Hd) as (d & He & Hn & Ho & _).
  exists d. split; [exact He|]. split; [exact Hn|].
  rewrite (Ho (js "url")); [reflexivity | discriminate].
Defined.

Lemma X13_witness :
  checked Samples.server_error
  = RejectedWith (ErrorObject (js "500 Internal Server Error - boom"))
  /\ services (fetch_settled Samples.server_error Samples.listed_page)
     = services Samples.listed_page
  /\ error (fetch_settled Samples.server_error Samples.listed_page)
     = Some (js "500 Internal Server Error - boom").
Proof.
  split; [reflexivity|].
  destruct (proj1 (X13_failed_fetch_keeps_rows Samples.server_error
                     Samples.listed_page)
              (ErrorObject (js "500 Internal Server Error - boom"))
              (or_introl eq_refl)) as (H1 & H2 & _).
  split; [exact H1 | exact H2].
Defined.

Lemma X15_witness :
  Auth.deriveAuthHeader (Some (js "xyz")) <> authHeader (page Samples.w_loading)
  /\ count is_live_get
       (inflight (token_effect (Some (js "xyz")) Samples.w_loading)) = 1%nat
  /\ length (inflight (token_effect (Some (js "xyz")) Samples.w_loading))
     = 2%nat.
Proof.
  assert (H : Auth.deriveAuthHeader (Some (js "xyz"))
              <> authHeader (page Samples.w_loading)) by discriminate.
  split; [exact H|].
  destruct (X15_token_change_unmounts (Some (js "xyz")) Samples.w_loading H)
    as [H1 H2].
  split; [rewrite H1 | rewrite H2]; reflexivity.
Defined.

Lemma X17_witness :
  ui_reachable Samples.w_loading
  /\ count is_live_get (inflight Samples.w_loading) = 1%nat
  /\ loading (page Samples.w_loading) = true.
Proof.
  split; [exact ui_loading|].
  destruct (X17_loading_tracks_fetch Samples.w_loading ui_loading) as [H _].
  split; [rewrite H|]; reflexivity.
Defined.

Lemma X18_witness :
  ui_reachable Scenarios.w_saving
  /\ count is_save (inflight Scenarios.w_saving) = 1%nat
  /\ saving (page Scenarios.w_saving) = true.
Proof.
  split; [exact ui_saving|].
  destruct (X18_saving_tracks_save Scenarios.w_saving ui_saving) as [H _].
  split; [rewrite H|]; reflexivity.
Defined.

Lemma X19_witness :
  ui_reachable Scenarios.w_toggling
  /\ count (is_toggle_of Samples.cod) (inflight Scenarios.w_toggling) = 1%nat
  /\ is_toggling Samples.cod (page Scenarios.w_toggling) = true
  /\ count (is_toggle_of Samples.razorpay) (inflight Scenarios.w_toggling)
     = 0%nat.
Proof.
  split; [exact ui_toggling|].
  destruct (X19_toggling_tracks_toggles Scenarios.w_toggling Samples.cod
              ui_toggling) as (H & _ & Hd & _).
  destruct (X19_toggling_tracks_toggles Scenarios.w_toggling Samples.razorpay
              ui_toggling) as [H' _].
  assert (H1 : count (is_toggle_of Samples.cod) (inflight Scenarios.w_toggling)
               = 1%nat) by (rewrite H; reflexivity).
  split; [exact H1|]. split; [exact (Hd H1)|].
  rewrite H'. reflexivity.
Defined.

Lemma X20_witness :
  ui_reachable Samples.w_managing
  /\ expandedKey (page Samples.w_managing) = Some Samples.razorpay
  /\ exists draft,
       editing (page Samples.w_managing) = Some draft
       /\ distinct_fields draft.
Proof.
  split; [exact ui_managing|]. split; [reflexivity|].
  destruct (X20_open_panel_has_draft Samples.w_managing Samples.razorpay
              ui_managing eq_refl) as (d & H1 & H2 & _).
  exists d. split; [exact H1 | exact H2].
Defined.

Lemma X21_witness :
  ui_reachable Samples.w_listed
  /\ on_screen Samples.cod (page Samples.w_listed)
  /\ exists h, authHeader (page Samples.w_listed) = Some h
               /\ Auth.hasScheme h = true.
Proof.
  assert (Hs : on_screen Samples.cod (page Samples.w_listed)).
  { split; [reflexivity|]. split; [reflexivity|].
    apply list_elem_of_further, list_elem_of_here. }
  split; [exact ui_listed|]. split; [exact Hs|].
  destruct (X21_buttons_need_header Samples.w_listed Samples.cod ui_listed Hs)
    as (h & H1 & _ & H2).
  exists h. split; [exact H1 | exact H2].
Defined.

Lemma X22_witness :
  ui_reachable Samples.w_listed
  /\ find_row Samples.cod (services (page Samples.w_listed))
     = Some Samples.row_cod
  /\ exists st',
       toggleService_begin Samples.cod (page Samples.w_listed)
       = ToggleSent false st'.
Proof.
  split; [exact ui_listed|]. split; [reflexivity|].
  destruct (X22_toggle_never_throws Samples.w_listed Samples.cod
              Samples.row_cod ui_listed eq_refl) as (_ & st' & H).
  exists st'. exact H.
Defined.

Lemma X23_witness :
  ui_reachable Scenarios.w_saving
  /\ (length (open_panels (page Scenarios.w_saving)) <= 1)%nat.
Proof.
  split; [exact ui_saving|].
  apply (X23_screen_one_panel Scenarios.w_saving ui_saving).
Defined.

End PageMore.
